(** * The weston desktop-shell client: panel, background, unlock dialog, desktop

    A shallow embedding of [clients/desktop-shell-panel.c],
    [clients/desktop-shell-background.c], [clients/desktop-shell-unlock.c]
    and [clients/desktop-shell-simple.c], and the properties of the
    launcher command-line parser, the painted flags, the readiness barrier
    and the lock handshake.

    Conventions.  A [char *] is a [string]: the characters before the
    terminating NUL.  A NULL pointer is [None].  A [wl_array] of pointers is
    a [list].  An [int] or [uint32_t] is a [Z].  Calls into the toolkit, cairo
    and the generated protocol stubs that the properties observe are
    returned as lists of requests. *)

From Stdlib Require Import String Ascii List ZArith Lia Bool Arith Floats Uint63.
From Equations Require Import Equations.
Import ListNotations.

Local Open Scope list_scope.
Local Open Scope Z_scope.

Set Warnings "-inexact-float".

(** ** What the toolkit and the protocol hand to the handlers *)

Inductive wl_pointer_button_state :=
| WL_POINTER_BUTTON_STATE_RELEASED
| WL_POINTER_BUTTON_STATE_PRESSED.

(** Button codes of [linux/input.h]. *)
Definition BTN_LEFT : Z := 272.
Definition BTN_RIGHT : Z := 273.

(** Requests of the desktop-shell protocol that the client sends. *)
Inductive request :=
| desktop_shell_unlock
| desktop_shell_desktop_ready
| desktop_shell_set_lock_surface
| desktop_shell_set_panel
| desktop_shell_set_background.

Record rectangle := {
  x : Z;
  y : Z;
  width : Z;
  height : Z
}.

(** ** C strings *)

(** [isspace] in the C locale: space, \t, \n, \v, \f, \r. *)
Definition isspace (c : ascii) : bool :=
  let n := nat_of_ascii c in
  (Nat.eqb n 32 || (Nat.leb 9 n && Nat.leb n 13))%bool.

Definition is_equals (c : ascii) : bool := Ascii.eqb c "="%char.

(** [strncmp (a, b, n) == 0]: the first [n] characters agree, the
    comparison stopping early where both strings end. *)
Fixpoint strncmp_zero (a b : string) (n : nat) {struct n} : bool :=
  match n with
  | O => true
  | S n' =>
      match a, b with
      | EmptyString, EmptyString => true
      | String x a', String y b' =>
          if Ascii.eqb x y then strncmp_zero a' b' n' else false
      | _, _ => false
      end
  end.

(** ** desktop-shell-panel.c *)

Module Panel.

(** The inner [for] of [panel_add_launcher]:
    [p] runs from [start] to the first NUL or space, and [eq] is set to each
    '=' it passes.  From [start] it returns the characters passed over, the offset
    [eq - start] of the last '=' among them ([None] for [eq == NULL]) and
    the string at [p]. *)
Fixpoint scan_token (s : string) (off : nat) (eq : option nat)
  : string * option nat * string :=
  match s with
  | EmptyString => (EmptyString, eq, EmptyString)
  | String c s' =>
      if isspace c then (EmptyString, eq, s)
      else
        let eq' := if is_equals c then Some off else eq in
        let '(tok, e, rest) := scan_token s' (S off) eq' in
        (String c tok, e, rest)
  end.

(** The second inner loop overwrites the run of spaces at [p] with NULs,
    which is what ends the token that [start] points to; it returns the
    string at the new [p]. *)
Fixpoint skip_space (s : string) : string :=
  match s with
  | EmptyString => EmptyString
  | String c s' => if isspace c then skip_space s' else s
  end.

(** The [for (k = 0; k < i; k++)] scan over [launcher->envp]: the first entry
    whose first [n] characters are those at [start] is overwritten with the
    token and the scan breaks ([Some]); [None] is [k == i]. *)
Fixpoint envp_replace (ps : list string) (start tok : string) (n : nat)
  : option (list string) :=
  match ps with
  | [] => None
  | e :: ps' =>
      if strncmp_zero e start n then Some (tok :: ps')
      else option_map (cons e) (envp_replace ps' start tok n)
  end.

(** The two arrays while the command line is scanned: [i] is the length of
    [st_envp] and [j] the length of [st_argv]. *)
Record parse_state := {
  st_envp : list string;
  st_argv : list string
}.

(** One turn of the outer [while], after the token has been delimited. *)
Definition parse_token (start tok : string) (eq : option nat)
    (st : parse_state) : parse_state :=
  match eq, st_argv st with
  | Some n, [] =>
      match envp_replace (st_envp st) start tok n with
      | Some ps => {| st_envp := ps; st_argv := st_argv st |}
      | None => {| st_envp := st_envp st ++ [tok]; st_argv := st_argv st |}
      end
  | _, _ => {| st_envp := st_envp st; st_argv := st_argv st ++ [tok] |}
  end.

Lemma scan_token_rest_length s off eq :
  (String.length (snd (scan_token s off eq)) <= String.length s)%nat.
Proof.
  revert off eq; induction s as [|c s IH]; intros off eq; simpl; [lia|].
  destruct (isspace c); simpl; [lia|].
  specialize (IH (S off) (if is_equals c then Some off else eq)).
  destruct (scan_token s (S off) _) as [[tok e] rest]; simpl in *; lia.
Qed.

Lemma skip_space_length s :
  (String.length (skip_space s) <= String.length s)%nat.
Proof.
  induction s as [|c s IH]; simpl; [lia|].
  destruct (isspace c); simpl; lia.
Qed.

Lemma scan_skip_decreases c s :
  (String.length (skip_space (snd (scan_token (String c s) 0%nat None)))
   < String.length (String c s))%nat.
Proof.
  simpl. destruct (isspace c) eqn:Hc; simpl.
  - rewrite Hc. pose proof (skip_space_length s). lia.
  - pose proof (scan_token_rest_length s 1%nat (if is_equals c then Some 0%nat else None)).
    destruct (scan_token s 1%nat _) as [[tok e] rest]; simpl in *.
    pose proof (skip_space_length rest). lia.
Qed.

(** The outer [while] over [start], which ends with [start = p]. *)
Equations parse_loop (start : string) (st : parse_state) : parse_state
  by wf (String.length start) lt :=
  parse_loop EmptyString st := st;
  parse_loop (String c s) st :=
    parse_loop (skip_space (snd (scan_token (String c s) 0%nat None)))
      (parse_token (String c s)
         (fst (fst (scan_token (String c s) 0%nat None)))
         (snd (fst (scan_token (String c s) 0%nat None))) st).
Next Obligation. apply scan_skip_decreases. Qed.

(** The tokens that the outer loop delimits, in order: what [start] points
    to at each turn once the spaces after it are overwritten.  A command
    line that begins with a space has the empty string as its first
    token. *)
Equations cmd_tokens (start : string) : list string
  by wf (String.length start) lt :=
  cmd_tokens EmptyString := [];
  cmd_tokens (String c s) :=
    fst (fst (scan_token (String c s) 0%nat None))
      :: cmd_tokens (skip_space (snd (scan_token (String c s) 0%nat None))).
Next Obligation. apply scan_skip_decreases. Qed.

(** A token with a '=' in it. *)
Fixpoint has_equals (tok : string) : bool :=
  match tok with
  | EmptyString => false
  | String c tok' => (is_equals c || has_equals tok')%bool
  end.

Fixpoint take_while {A} (f : A -> bool) (l : list A) : list A :=
  match l with
  | [] => []
  | a :: l' => if f a then a :: take_while f l' else []
  end.

Fixpoint drop_while {A} (f : A -> bool) (l : list A) : list A :=
  match l with
  | [] => []
  | a :: l' => if f a then drop_while f l' else l
  end.

(** The environment overlay of a command line: its tokens with a '=' that
    come before the first token without one. *)
Definition overlay (cmd : string) : list string :=
  take_while has_equals (cmd_tokens cmd).

(** A token with a '=' after the first token without one. *)
Definition equals_after_plain (cmd : string) : bool :=
  existsb has_equals (tl (drop_while has_equals (cmd_tokens cmd))).

(** A command line that is not empty and holds nothing but spaces. *)
Definition blank (cmd : string) : bool :=
  match cmd with
  | EmptyString => false
  | String _ _ => match skip_space cmd with EmptyString => true | _ => false end
  end.

Fixpoint strings_of (l : list (option string)) : list string :=
  match l with
  | [] => []
  | Some s :: l' => s :: strings_of l'
  | None :: l' => strings_of l'
  end.

(** The command line written back from a parsed launcher: the overlay, then
    the arguments, with one space between two tokens. *)
Definition reconstruct (ov : list string) (args : list (option string))
  : string :=
  String.concat " " (ov ++ strings_of args).

Record panel_launcher := {
  icon : string;
  path : string;
  envp : list (option string);
  argv : list (option string);
  focused : Z;
  pressed : Z
}.

(** The launcher that [panel_add_launcher] builds before it links it into
    the panel: [environ] is copied into [envp], the command line is
    scanned, and both arrays get their NULL. *)
Definition panel_launcher_new (environ : list string) (icon_file cmd : string)
  : panel_launcher :=
  let st := parse_loop cmd {| st_envp := environ; st_argv := [] |} in
  {| icon := icon_file;
     path := cmd;
     envp := map Some (st_envp st) ++ [None];
     argv := map Some (st_argv st) ++ [None];
     focused := 0;
     pressed := 0 |}.

Record panel := {
  launcher_list : list panel_launcher;
  clock : option Z;
  painted : Z
}.

(** [wl_list_insert (panel->launcher_list.prev, &launcher->link)] links the
    launcher at the tail. *)
Definition panel_add_launcher (environ : list string) (p : panel)
    (icon_file cmd : string) : panel :=
  {| launcher_list := launcher_list p ++ [panel_launcher_new environ icon_file cmd];
     clock := clock p;
     painted := painted p |}.

(** What a call of [panel_launcher_activate] comes to in the process that is
    followed, [pid] being what [fork] returned there. *)
Inductive activation :=
| fork_failed
| parent_returns
| child_execve (file : option string) (args env : list (option string)).

Definition panel_launcher_activate (l : panel_launcher) (pid : Z) : activation :=
  if pid <? 0 then fork_failed
  else if negb (pid =? 0) then parent_returns
  else child_execve (nth 0 (argv l) None) (argv l) (envp l).

(** [panel_launcher_button_handler] schedules a redraw of the widget and
    then looks at [state] only; [None] is a return without activation. *)
Definition panel_launcher_button_handler (l : panel_launcher) (button : Z)
    (state : wl_pointer_button_state) (pid : Z) : option activation :=
  match state with
  | WL_POINTER_BUTTON_STATE_RELEASED => Some (panel_launcher_activate l pid)
  | WL_POINTER_BUTTON_STATE_PRESSED => None
  end.

Definition set_focused (v : Z) (l : panel_launcher) : panel_launcher :=
  {| icon := icon l; path := path l; envp := envp l; argv := argv l;
     focused := v; pressed := pressed l |}.

Definition panel_launcher_enter_handler : panel_launcher -> panel_launcher :=
  set_focused 1.

Definition panel_launcher_leave_handler : panel_launcher -> panel_launcher :=
  set_focused 0.

(** [panel_create]: the panel is zeroed, the launcher list initialised, and
    [panel_add_clock] leaves [clock] NULL when [timerfd_create] fails. *)
Definition panel_create (timerfd : Z) : panel :=
  {| launcher_list := [];
     clock := if timerfd <? 0 then None else Some timerfd;
     painted := 0 |}.

(** [panel_redraw_handler] paints the bar and sets the flag;
    [check_desktop_ready] is its last call, made on the desktop below. *)
Definition panel_redraw_handler (p : panel) : panel :=
  {| launcher_list := launcher_list p; clock := clock p; painted := 1 |}.

Definition panel_painted (p : panel) : Z := painted p.

(** *** Reading the configuration

    [parse_config_file] is in [shared/config-parser.c], outside these
    sources.  Its run over a file is taken as a parameter: the assignments
    it makes to the key variables registered in [config_sections], the calls
    of the [launcher] section's done handler, and the value it returns. *)
Inductive config_step :=
| assign_panel_color (v : Z)
| assign_launcher_icon (v : string)
| assign_launcher_path (v : string)
| launcher_done.

Record config_run := {
  steps : list config_step;
  ret : Z
}.

(** The file-scope key variables. *)
Record config_keys := {
  key_panel_color : Z;
  key_launcher_icon : option string;
  key_launcher_path : option string
}.

Definition initial_keys : config_keys :=
  {| key_panel_color := 0xaa000000;
     key_launcher_icon := None;
     key_launcher_path := None |}.

(** [launcher_section_done] uses [data] as a pointer to a panel: [Some p]
    when [data] designates the panel [p], [None] when it designates no
    panel.  A section that lacks a key is reported and the handler returns.
    Otherwise the launcher is added to the panel at [data] and the keys are
    freed and cleared; on a [data] that designates no panel the list
    insertion of [panel_add_launcher] goes through whatever the memory at
    [data] holds, and the handler has no result. *)
Definition launcher_section_done (environ : list string) (data : option panel)
    (k : config_keys) : option (option panel * config_keys) :=
  match key_launcher_icon k, key_launcher_path k with
  | Some i, Some c =>
      match data with
      | Some p =>
          Some (Some (panel_add_launcher environ p i c),
                {| key_panel_color := key_panel_color k;
                   key_launcher_icon := None;
                   key_launcher_path := None |})
      | None => None
      end
  | _, _ => Some (data, k)
  end.

(** One step of [parse_config_file] as [panel_read_config] calls it.  The
    [data] it hands to the done handler is the address of
    [panel_read_config]'s own [panel] argument, a pointer variable and not
    a panel: the handler is never given the panel. *)
Definition config_do (environ : list string) (s : config_step)
    (pk : panel * config_keys) : option (panel * config_keys) :=
  let (p, k) := pk in
  match s with
  | assign_panel_color v =>
      Some (p, {| key_panel_color := v;
                  key_launcher_icon := key_launcher_icon k;
                  key_launcher_path := key_launcher_path k |})
  | assign_launcher_icon v =>
      Some (p, {| key_panel_color := key_panel_color k;
                  key_launcher_icon := Some v;
                  key_launcher_path := key_launcher_path k |})
  | assign_launcher_path v =>
      Some (p, {| key_panel_color := key_panel_color k;
                  key_launcher_icon := key_launcher_icon k;
                  key_launcher_path := Some v |})
  | launcher_done =>
      match launcher_section_done environ None k with
      | Some (_, k') => Some (p, k')
      | None => None
      end
  end.

Fixpoint config_steps (environ : list string) (st : list config_step)
    (pk : panel * config_keys) : option (panel * config_keys) :=
  match st with
  | [] => Some pk
  | s :: st' =>
      match config_do environ s pk with
      | Some pk' => config_steps environ st' pk'
      | None => None
      end
  end.

Definition parse_config_file (environ : list string) (run : config_run)
    (pk : panel * config_keys) : option (panel * config_keys) :=
  config_steps environ (steps run) pk.

(** [panel_read_config]; [DATADIR] and [BINDIR] are set by the build.  The
    result is the panel, the key variables and the value returned, when
    the call returns. *)
Definition panel_read_config (DATADIR BINDIR : string) (environ : list string)
    (run : config_run) (pk : panel * config_keys)
  : option (panel * config_keys * Z) :=
  match parse_config_file environ run pk with
  | Some (p, k) =>
      Some (if ret run <? 0 then
              (panel_add_launcher environ p
                 (DATADIR ++ "/weston/terminal.png")%string
                 (BINDIR ++ "/weston-terminal")%string, k, ret run)
            else (p, k, ret run))
  | None => None
  end.

(** The handlers of the file that are given the panel or one of its
    launchers.  [panel_resize_handler], [panel_configure] and
    [panel_button_handler] only call the toolkit. *)
Inductive panel_op :=
| op_redraw
| op_resize (w h : Z)
| op_configure (w h : Z)
| op_button (button : Z) (state : wl_pointer_button_state)
| op_add_launcher (environ : list string) (icon_file cmd : string)
| op_launcher_enter (k : nat)
| op_launcher_leave (k : nat)
| op_launcher_button (k : nat) (button : Z) (state : wl_pointer_button_state).

Fixpoint update_nth {A} (k : nat) (f : A -> A) (l : list A) : list A :=
  match l, k with
  | [], _ => []
  | a :: l', O => f a :: l'
  | a :: l', S k' => a :: update_nth k' f l'
  end.

Definition on_launcher (k : nat) (f : panel_launcher -> panel_launcher)
    (p : panel) : panel :=
  {| launcher_list := update_nth k f (launcher_list p);
     clock := clock p;
     painted := painted p |}.

Definition panel_do (o : panel_op) (p : panel) : panel :=
  match o with
  | op_redraw => panel_redraw_handler p
  | op_resize _ _ => p
  | op_configure _ _ => p
  | op_button _ _ => p
  | op_add_launcher environ i c => panel_add_launcher environ p i c
  | op_launcher_enter k => on_launcher k panel_launcher_enter_handler p
  | op_launcher_leave k => on_launcher k panel_launcher_leave_handler p
  | op_launcher_button _ _ _ => p
  end.

Definition is_redraw (o : panel_op) : bool :=
  match o with op_redraw => true | _ => false end.

End Panel.

(** ** desktop-shell-background.c *)

Module Background.

(** A [double] is a binary64 [float]; an [int] converts exactly. *)
Definition double_of_int (z : Z) : float :=
  if z <? 0 then PrimFloat.opp (PrimFloat.of_uint63 (Uint63.of_Z (- z)))
  else PrimFloat.of_uint63 (Uint63.of_Z z).

(** A store into a signed bit-field of [w] bits keeps the low [w] bits,
    read back in two's complement. *)
Definition store_bitfield (w v : Z) : Z :=
  (v + 2 ^ (w - 1)) mod 2 ^ w - 2 ^ (w - 1).

Definition BACKGROUND_SCALE : Z := 0.
Definition BACKGROUND_SCALE_CROP : Z := 1.
Definition BACKGROUND_TILE : Z := 2.

(** [painted] is [int painted:1] and [type] is [int type:4]. *)
Record background := {
  image : option string;
  color : Z;
  painted : Z;
  type : Z
}.

(** The calls into cairo that [background_draw] makes on the context and on
    the pattern of the image. *)
Inductive cairo_call :=
| cairo_set_source_rgba (r g b a : float)
| cairo_paint
| cairo_matrix_init_scale (sx sy : float)
| cairo_matrix_init_translate (tx ty : float)
| cairo_matrix_scale (sx sy : float)
| cairo_pattern_set_matrix
| cairo_pattern_set_extend_repeat
| cairo_set_source.

Local Open Scope float_scope.

Definition set_hex_color (c : Z) : cairo_call :=
  cairo_set_source_rgba
    (double_of_int (Z.land (Z.shiftr c 16) 255) / 255)
    (double_of_int (Z.land (Z.shiftr c 8) 255) / 255)
    (double_of_int (Z.land (Z.shiftr c 0) 255) / 255)
    (double_of_int (Z.land (Z.shiftr c 24) 255) / 255).

(** The [switch (background->type)] on the pattern made for the image;
    a value that is none of the three modes falls through it. *)
Definition pattern_calls (mode : Z) (im_w im_h : float)
    (allocation : rectangle) : list cairo_call :=
  let aw := double_of_int (width allocation) in
  let ah := double_of_int (height allocation) in
  let sx := im_w / aw in
  let sy := im_h / ah in
  if (mode =? BACKGROUND_SCALE)%Z then
    [cairo_matrix_init_scale sx sy; cairo_pattern_set_matrix]
  else if (mode =? BACKGROUND_SCALE_CROP)%Z then
    let s := if PrimFloat.ltb sx sy then sx else sy in
    let tx := (im_w - s * aw) * 0.5 in
    let ty := (im_h - s * ah) * 0.5 in
    [cairo_matrix_init_translate tx ty; cairo_matrix_scale s s;
     cairo_pattern_set_matrix]
  else if (mode =? BACKGROUND_TILE)%Z then
    [cairo_pattern_set_extend_repeat]
  else [].

(** [background_draw]: [loaded] is the size of the surface that
    [load_cairo_surface] returns for the image file, [None] when it
    returns NULL. *)
Definition background_draw (b : background) (loaded : option (Z * Z))
    (allocation : rectangle) : background * list cairo_call :=
  let img := match image b with Some _ => loaded | None => None end in
  let source :=
    match img with
    | Some (w, h) =>
        if negb (type b =? -1)%Z then
          pattern_calls (type b) (double_of_int w) (double_of_int h) allocation
            ++ [cairo_set_source]
        else [set_hex_color (color b)]
    | None => [set_hex_color (color b)]
    end in
  ({| image := image b; color := color b;
      painted := store_bitfield 1 1; type := type b |},
   [cairo_set_source_rgba 0 0 0.2 1; cairo_paint] ++ source ++ [cairo_paint]).

Local Close Scope float_scope.

(** [background_create] zeroes the structure. *)
Definition background_create : background :=
  {| image := None; color := 0; painted := 0; type := 0 |}.

Definition background_painted (b : background) : Z := painted b.

(** What happens to a background: [background_draw] and
    [background_configure] are given it, the second only schedules a resize
    of the widget.  [background_section_done], which stores the image, the
    colour and the mode of a section through its [data], is called by
    [parse_config_file] with the [data] of [background_read_config]: the
    address of that function's own argument, a pointer variable and not the
    background.  Its stores go to the stack around that variable and not to
    the background: whatever becomes of the call, it changes no
    background. *)
Inductive background_op :=
| op_draw (loaded : option (Z * Z)) (allocation : rectangle)
| op_configure (w h : Z)
| op_section_done.

Definition background_do (o : background_op) (b : background) : background :=
  match o with
  | op_draw loaded allocation => fst (background_draw b loaded allocation)
  | op_configure _ _ => b
  | op_section_done => b
  end.

Definition is_draw (o : background_op) : bool :=
  match o with op_draw _ _ => true | _ => false end.

End Background.

(** ** desktop-shell-unlock.c *)

Module Unlock.

(** What a [struct unlocker *] stored in a dialog designates: the program
    has one unlocker, the one of the desktop. *)
Inductive unlocker_ptr := desktop_unlocker.

(** [struct unlock_dialog]: the two flags and the back pointer
    [dialog->unlocker] ([None] is NULL). *)
Record unlock_dialog := {
  button_focused : Z;
  closing : Z;
  dialog_unlocker : option unlocker_ptr
}.

Record unlocker := {
  dialog : option unlock_dialog
}.

(** The one task the file defers: [unlocker->task], whose [run] is
    [unlock_dialog_finish]. *)
Inductive task := unlocker_task.

(** [unlock_dialog_button_handler].  Its first two statements read
    [dialog->unlocker->desktop] and [dialog->unlocker], before the button
    is looked at: with a NULL back pointer the read faults and the handler
    has no result ([None]).  Otherwise: the dialog after the event and the
    tasks handed to [display_defer]. *)
Definition unlock_dialog_button_handler (d : unlock_dialog) (button : Z)
    (state : wl_pointer_button_state) : option (unlock_dialog * list task) :=
  match dialog_unlocker d with
  | None => None
  | Some _ =>
      Some
        (if button =? BTN_LEFT then
           match state with
           | WL_POINTER_BUTTON_STATE_RELEASED =>
               if closing d =? 0 then
                 ({| button_focused := button_focused d;
                     closing := 1;
                     dialog_unlocker := dialog_unlocker d |},
                  [unlocker_task])
               else (d, [])
           | WL_POINTER_BUTTON_STATE_PRESSED => (d, [])
           end
         else (d, []))
  end.

Definition unlock_dialog_widget_enter_handler (d : unlock_dialog)
  : unlock_dialog :=
  {| button_focused := 1;
     closing := closing d;
     dialog_unlocker := dialog_unlocker d |}.

Definition unlock_dialog_widget_leave_handler (d : unlock_dialog)
  : unlock_dialog :=
  {| button_focused := 0;
     closing := closing d;
     dialog_unlocker := dialog_unlocker d |}.

(** [unlock_dialog_create] zeroes the dialog, sets its window, widgets and
    handlers, and registers its surface.  No statement of it, and none of
    the file, assigns [dialog->unlocker]: the back pointer stays NULL. *)
Definition unlock_dialog_create : unlock_dialog * list request :=
  ({| button_focused := 0; closing := 0; dialog_unlocker := None |},
   [desktop_shell_set_lock_surface]).

(** [unlock_dialog_finish], the deferred task: it sends the unlock request,
    then [unlock_dialog_destroy] reads [dialog->window] of
    [unlocker->dialog] without a test, so with no dialog the unlocker has
    no next state ([None]); with one the dialog is destroyed and the
    pointer cleared. *)
Definition unlock_dialog_finish (u : unlocker)
  : list request * option unlocker :=
  ([desktop_shell_unlock],
   match dialog u with
   | Some _ => Some {| dialog := None |}
   | None => None
   end).

(** [unlocker_create] allocates the unlocker, sets its task and desktop,
    and then returns 0. *)
Definition unlocker_create : option unlocker :=
  let unlocker := {| dialog := None |} in
  None.

Definition unlocker_lock (u : unlocker) : unlocker * list request :=
  match dialog u with
  | None =>
      let (d, rs) := unlock_dialog_create in ({| dialog := Some d |}, rs)
  | Some _ => (u, [])
  end.

(** What the toolkit delivers to the button widget of one dialog: the
    pointer enters or leaves it, or a button changes state. *)
Inductive dialog_event :=
| dialog_enter
| dialog_leave
| dialog_button (button : Z) (state : wl_pointer_button_state).

(** The events delivered to one dialog, in order; the tasks deferred on the
    way.  Nothing is delivered after a fault. *)
Fixpoint dialog_events (evs : list dialog_event) (d : unlock_dialog)
  : option (unlock_dialog * list task) :=
  match evs with
  | [] => Some (d, [])
  | dialog_enter :: evs' =>
      dialog_events evs' (unlock_dialog_widget_enter_handler d)
  | dialog_leave :: evs' =>
      dialog_events evs' (unlock_dialog_widget_leave_handler d)
  | dialog_button button state :: evs' =>
      match unlock_dialog_button_handler d button state with
      | None => None
      | Some (d1, t1) =>
          match dialog_events evs' d1 with
          | None => None
          | Some (d2, t2) => Some (d2, t1 ++ t2)
          end
      end
  end.

End Unlock.

(** ** desktop-shell-simple.c *)

Module Desktop.

Record output := {
  panel : option Panel.panel;
  background : option Background.background
}.

Record desktop := {
  interface_version : Z;
  unlocker : option Unlock.unlocker;
  outputs : list output;
  painted : Z
}.

(** [static int key_locking = 1;] nothing in the file assigns it. *)
Definition key_locking : Z := 1.

(** A non-NULL sub-surface whose [*_painted] accessor returns 0. *)
Definition panel_unpainted (o : output) : bool :=
  match panel o with
  | Some p => Panel.panel_painted p =? 0
  | None => false
  end.

Definition background_unpainted (o : output) : bool :=
  match background o with
  | Some b => Background.background_painted b =? 0
  | None => false
  end.

Fixpoint is_desktop_painted (os : list output) : Z :=
  match os with
  | [] => 1
  | o :: os' =>
      if panel_unpainted o then 0
      else if background_unpainted o then 0
      else is_desktop_painted os'
  end.

Definition check_desktop_ready (d : desktop) : desktop * list request :=
  if ((painted d =? 0) && negb (is_desktop_painted (outputs d) =? 0))%bool
  then
    ({| interface_version := interface_version d;
        unlocker := unlocker d;
        outputs := outputs d;
        painted := 1 |},
     if 2 <=? interface_version d then [desktop_shell_desktop_ready] else [])
  else (d, []).

Definition set_unlocker (u : option Unlock.unlocker) (d : desktop) : desktop :=
  {| interface_version := interface_version d;
     unlocker := u;
     outputs := outputs d;
     painted := painted d |}.

Definition set_outputs (os : list output) (d : desktop) : desktop :=
  {| interface_version := interface_version d;
     unlocker := unlocker d;
     outputs := os;
     painted := painted d |}.

(** [desktop_shell_prepare_lock_surface], with the value of [key_locking]. *)
Definition desktop_shell_prepare_lock_surface (locking : Z) (d : desktop)
  : desktop * list request :=
  match unlocker d with
  | Some u =>
      if locking =? 0 then (d, [desktop_shell_unlock])
      else
        let (u', rs) := Unlock.unlocker_lock u in (set_unlocker (Some u') d, rs)
  | None => (d, [desktop_shell_unlock])
  end.

(** What [global_handler] is called with: the [desktop_shell] global and its
    version, a [wl_output] global (with whether the allocation in
    [panel_create] succeeded, and what [timerfd_create] returned), or
    another interface. *)
Inductive global :=
| global_desktop_shell (version : Z)
| global_wl_output (panel_allocated : bool) (timerfd : Z)
| global_other.

Definition global_handler (g : global) (d : desktop) : desktop * list request :=
  match g with
  | global_desktop_shell version =>
      ({| interface_version := if version <? 2 then version else 2;
          unlocker := unlocker d;
          outputs := outputs d;
          painted := painted d |}, [])
  | global_wl_output panel_allocated timerfd =>
      let p := if panel_allocated then Some (Panel.panel_create timerfd)
               else None in
      let o := {| panel := p; background := Some Background.background_create |} in
      (set_outputs (o :: outputs d) d,
       (if panel_allocated then [desktop_shell_set_panel] else [])
         ++ [desktop_shell_set_background])
  | global_other => (d, [])
  end.

(** The start of [main]: the desktop is zeroed, [unlocker_create] is
    called, the output list is initialised. *)
Definition main_start : desktop :=
  {| interface_version := 0;
     unlocker := Unlock.unlocker_create;
     outputs := [];
     painted := 0 |}.

Definition on_panel (f : Panel.panel -> Panel.panel) (o : output) : output :=
  {| panel := option_map f (panel o); background := background o |}.

Definition on_background (f : Background.background -> Background.background)
    (o : output) : output :=
  {| panel := panel o; background := option_map f (background o) |}.

(** What a handler leaves behind: a request sent to the compositor, a task
    handed to [display_defer], or a fault (a read through a NULL pointer),
    which ends the process. *)
Inductive effect :=
| send (r : request)
| defer (t : Unlock.task)
| fault.

(** A handler applied to the dialog of the desktop's unlocker, if there is
    one. *)
Definition on_dialog
    (f : Unlock.unlock_dialog -> option (Unlock.unlock_dialog * list Unlock.task))
    (d : desktop) : desktop * list effect :=
  match unlocker d with
  | Some u =>
      match Unlock.dialog u with
      | Some dl =>
          match f dl with
          | Some (dl', ts) =>
              (set_unlocker (Some {| Unlock.dialog := Some dl' |}) d,
               map defer ts)
          | None => (d, [fault])
          end
      | None => (d, [])
      end
  | None => (d, [])
  end.

Definition is_ready (e : effect) : bool :=
  match e with send desktop_shell_desktop_ready => true | _ => false end.

Definition is_fault (e : effect) : bool :=
  match e with fault => true | _ => false end.

Definition sends (p : desktop * list request) : desktop * list effect :=
  (fst p, map send (snd p)).

(** What the event loop dispatches to the handlers of the four files.  The
    output of an event is given by its place [k] in the list.  A redraw
    ends with [check_desktop_ready]; an operation on a panel or background
    is one of [Panel.panel_op] and [Background.background_op]. *)
Inductive event :=
| ev_global (g : global)
| ev_panel (k : nat) (o : Panel.panel_op)
| ev_background (k : nat) (o : Background.background_op)
| ev_prepare_lock_surface
| ev_dialog_button (button : Z) (state : wl_pointer_button_state)
| ev_deferred_task.

Definition has_panel (k : nat) (d : desktop) : bool :=
  match nth_error (outputs d) k with
  | Some o => match panel o with Some _ => true | None => false end
  | None => false
  end.

Definition has_background (k : nat) (d : desktop) : bool :=
  match nth_error (outputs d) k with
  | Some o => match background o with Some _ => true | None => false end
  | None => false
  end.

Definition step (e : event) (d : desktop) : desktop * list effect :=
  match e with
  | ev_global g => sends (global_handler g d)
  | ev_panel k o =>
      let d' := set_outputs
                  (Panel.update_nth k (on_panel (Panel.panel_do o)) (outputs d)) d in
      if (Panel.is_redraw o && has_panel k d)%bool
      then sends (check_desktop_ready d')
      else (d', [])
  | ev_background k o =>
      let d' := set_outputs
                  (Panel.update_nth k (on_background (Background.background_do o))
                     (outputs d)) d in
      if (Background.is_draw o && has_background k d)%bool
      then sends (check_desktop_ready d')
      else (d', [])
  | ev_prepare_lock_surface =>
      sends (desktop_shell_prepare_lock_surface key_locking d)
  | ev_dialog_button button state =>
      on_dialog (fun dl => Unlock.unlock_dialog_button_handler dl button state) d
  | ev_deferred_task =>
      match unlocker d with
      | Some u =>
          match Unlock.unlock_dialog_finish u with
          | (rs, Some u') => (set_unlocker (Some u') d, map send rs)
          | (rs, None) => (d, map send rs ++ [fault])
          end
      | None => (d, [])
      end
  end.

(** The events of a run, in order.  After a fault nothing more is
    dispatched. *)
Fixpoint run (evs : list event) (d : desktop) : desktop * list effect :=
  match evs with
  | [] => (d, [])
  | e :: evs' =>
      let (d1, r1) := step e d in
      if existsb is_fault r1 then (d1, r1)
      else
        let (d2, r2) := run evs' d1 in
        (d2, r1 ++ r2)
  end.

End Desktop.

(** * Properties *)

(** ** The launcher command line *)

Section LauncherParse.

Import Panel.
Local Open Scope nat_scope.

(** The three components of [scan_token], each on its own. *)
Fixpoint token_of (s : string) : string :=
  match s with
  | EmptyString => EmptyString
  | String c s' => if isspace c then EmptyString else String c (token_of s')
  end.

Fixpoint rest_of (s : string) : string :=
  match s with
  | EmptyString => EmptyString
  | String c s' => if isspace c then s else rest_of s'
  end.

Fixpoint eq_of (s : string) (off : nat) (eq : option nat) : option nat :=
  match s with
  | EmptyString => eq
  | String c s' =>
      if isspace c then eq
      else eq_of s' (S off) (if is_equals c then Some off else eq)
  end.

Fixpoint nospace (s : string) : bool :=
  match s with
  | EmptyString => true
  | String c s' => negb (isspace c) && nospace s'
  end.

(** The end of a string, or a space: where a token stops. *)
Definition at_break (s : string) : bool :=
  match s with
  | EmptyString => true
  | String c _ => isspace c
  end.

Definition nonempty (s : string) : bool :=
  match s with EmptyString => false | String _ _ => true end.

(** A token as the scan leaves it in an array, merged into the state. *)
Definition merge (st : parse_state) (tok : string) : parse_state :=
  parse_token tok tok (eq_of tok 0 None) st.

Lemma scan_token_split s off eq :
  scan_token s off eq = (token_of s, eq_of s off eq, rest_of s).
Proof.
  revert off eq; induction s as [|c s IH]; intros off eq; simpl; [reflexivity|].
  destruct (isspace c); [reflexivity|].
  rewrite IH; reflexivity.
Qed.

Lemma token_rest s : (token_of s ++ rest_of s)%string = s.
Proof.
  induction s as [|c s IH]; simpl; [reflexivity|].
  destruct (isspace c); simpl; [reflexivity|]. now rewrite IH.
Qed.

Lemma token_of_nospace s : nospace (token_of s) = true.
Proof.
  induction s as [|c s IH]; simpl; [reflexivity|].
  destruct (isspace c) eqn:Hc; simpl; [reflexivity|]. now rewrite Hc.
Qed.

Lemma token_of_app t r :
  nospace t = true -> at_break r = true ->
  token_of (t ++ r) = t /\ rest_of (t ++ r) = r.
Proof.
  intros Ht Hr; induction t as [|c t IH]; simpl in *.
  - destruct r as [|c r]; simpl in *; [auto|]. rewrite Hr; auto.
  - apply andb_true_iff in Ht as [Hc Ht]. apply negb_true_iff in Hc.
    rewrite Hc. destruct (IH Ht) as [-> ->]; auto.
Qed.

Lemma token_of_id t : nospace t = true -> token_of t = t.
Proof.
  intros Ht. destruct (token_of_app t EmptyString Ht eq_refl) as [H _].
  revert H. replace (t ++ "")%string with t; [auto|].
  clear; induction t; simpl; congruence.
Qed.

Lemma eq_of_token s off eq : eq_of (token_of s) off eq = eq_of s off eq.
Proof.
  revert off eq; induction s as [|c s IH]; intros; simpl; [reflexivity|].
  destruct (isspace c) eqn:Hc; simpl; [reflexivity|]. rewrite Hc. apply IH.
Qed.

Lemma eq_of_bound s off eq n :
  eq_of s off eq = Some n ->
  eq = Some n \/ (off <= n /\ n < off + String.length (token_of s)).
Proof.
  revert off eq; induction s as [|c s IH]; intros off eq H; simpl in *; [auto|].
  destruct (isspace c); [auto|]. simpl.
  apply IH in H as [H|H].
  - destruct (is_equals c); [|auto]. injection H as <-. right; lia.
  - right; lia.
Qed.

Lemma eq_of_none s off eq :
  eq_of s off eq = None <-> eq = None /\ has_equals (token_of s) = false.
Proof.
  revert off eq; induction s as [|c s IH]; intros off eq; simpl.
  - intuition.
  - destruct (isspace c); simpl; [intuition|].
    rewrite IH. destruct (is_equals c); simpl; intuition congruence.
Qed.

Lemma strncmp_zero_prefix e t r n :
  n <= String.length t ->
  strncmp_zero e (t ++ r) n = strncmp_zero e t n.
Proof.
  revert e t; induction n as [|n IH]; intros e t Hn; [reflexivity|].
  destruct t as [|c t]; simpl in Hn; [lia|].
  destruct e as [|x e]; simpl; [reflexivity|].
  destruct (Ascii.eqb x c); [|reflexivity]. apply IH; lia.
Qed.

Lemma envp_replace_prefix ps t r tok n :
  n <= String.length t ->
  envp_replace ps (t ++ r) tok n = envp_replace ps t tok n.
Proof.
  intros Hn; induction ps as [|e ps IH]; simpl; [reflexivity|].
  rewrite strncmp_zero_prefix by exact Hn. now rewrite IH.
Qed.

Lemma parse_token_merge start st :
  parse_token start (token_of start) (eq_of start 0 None) st
  = merge st (token_of start).
Proof.
  unfold merge, parse_token. rewrite eq_of_token.
  destruct (eq_of start 0 None) as [n|] eqn:He; [|reflexivity].
  destruct (st_argv st); [|reflexivity].
  apply eq_of_bound in He as [He|[_ He]]; [discriminate|].
  rewrite <- (token_rest start) at 1.
  rewrite (envp_replace_prefix _ (token_of start) (rest_of start)); [reflexivity|].
  simpl in He. lia.
Qed.

Lemma parse_loop_step start st :
  start <> EmptyString ->
  parse_loop start st
  = parse_loop (skip_space (rest_of start)) (merge st (token_of start)).
Proof.
  destruct start as [|c s]; [congruence|intros _].
  rewrite parse_loop_equation_2.
  generalize (String c s); intros start.
  rewrite !scan_token_split; cbn [fst snd].
  now rewrite parse_token_merge.
Qed.

Lemma cmd_tokens_step start :
  start <> EmptyString ->
  cmd_tokens start = token_of start :: cmd_tokens (skip_space (rest_of start)).
Proof.
  destruct start as [|c s]; [congruence|intros _].
  rewrite cmd_tokens_equation_2.
  generalize (String c s); intros start.
  now rewrite !scan_token_split.
Qed.

Lemma skip_rest_length start :
  start <> EmptyString ->
  String.length (skip_space (rest_of start)) < String.length start.
Proof.
  destruct start as [|c s]; [congruence|intros _].
  pose proof (scan_skip_decreases c s) as H.
  now rewrite scan_token_split in H.
Qed.

(** Induction on a command line along the turns of the outer loop. *)
Lemma cmd_ind (P : string -> Prop) :
  P EmptyString ->
  (forall start, start <> EmptyString ->
     P (skip_space (rest_of start)) -> P start) ->
  forall cmd, P cmd.
Proof.
  intros H0 Hs cmd.
  remember (String.length cmd) as n eqn:Hn.
  revert cmd Hn; induction n as [n IH] using lt_wf_ind; intros cmd ->.
  destruct cmd as [|c s]; [exact H0|].
  apply Hs; [discriminate|].
  eapply IH; [|reflexivity]. apply skip_rest_length; discriminate.
Qed.

Lemma parse_loop_tokens cmd st :
  parse_loop cmd st = fold_left merge (cmd_tokens cmd) st.
Proof.
  revert st; induction cmd as [|start Hne IH] using cmd_ind; intros st.
  - now rewrite parse_loop_equation_1, cmd_tokens_equation_1.
  - rewrite parse_loop_step, cmd_tokens_step by exact Hne.
    simpl. apply IH.
Qed.


Lemma cmd_tokens_nospace cmd : forallb nospace (cmd_tokens cmd) = true.
Proof.
  induction cmd as [|start Hne IH] using cmd_ind.
  - now rewrite cmd_tokens_equation_1.
  - rewrite cmd_tokens_step by exact Hne. simpl.
    now rewrite token_of_nospace, IH.
Qed.

(** A string that does not begin with a space. *)
Definition at_word (s : string) : bool :=
  match s with
  | EmptyString => true
  | String c _ => negb (isspace c)
  end.

Definition good (t : string) : bool := nospace t && nonempty t.

Lemma skip_space_at_word s : at_word (skip_space s) = true.
Proof.
  induction s as [|c s IH]; simpl; [reflexivity|].
  destruct (isspace c) eqn:Hc; simpl; [exact IH | now rewrite Hc].
Qed.


Lemma cmd_tokens_good cmd :
  at_word cmd = true -> forallb good (cmd_tokens cmd) = true.
Proof.
  induction cmd as [|start Hne IH] using cmd_ind; intros Hw.
  - now rewrite cmd_tokens_equation_1.
  - rewrite cmd_tokens_step by exact Hne. simpl.
    rewrite IH by apply skip_space_at_word.
    unfold good. rewrite token_of_nospace.
    destruct start as [|c s]; [congruence|]. simpl in *.
    apply negb_true_iff in Hw. now rewrite Hw.
Qed.






Lemma take_drop_while {A} (f : A -> bool) l :
  take_while f l ++ drop_while f l = l.
Proof.
  induction l as [|a l IH]; simpl; [reflexivity|].
  destruct (f a); simpl; congruence.
Qed.

Lemma has_equals_eq_of tok :
  nospace tok = true ->
  has_equals tok = match eq_of tok 0 None with Some _ => true | None => false end.
Proof.
  intros Hns. pose proof (eq_of_none tok 0 None) as H.
  rewrite token_of_id in H by exact Hns.
  destruct (eq_of tok 0 None); destruct (has_equals tok); intuition congruence.
Qed.

Lemma merge_argv_cons st a l toks :
  st_argv st = a :: l ->
  st_argv (fold_left merge toks st) = (a :: l) ++ toks.
Proof.
  revert st a l; induction toks as [|t toks IH]; intros st a l Hst; simpl.
  - now rewrite app_nil_r.
  - assert (H : st_argv (merge st t) = (a :: l) ++ [t]).
    { unfold merge, parse_token. rewrite Hst.
      destruct (eq_of t 0 None); reflexivity. }
    simpl in H. rewrite (IH _ _ _ H). simpl. now rewrite <- app_assoc.
Qed.

Lemma merge_argv st toks :
  st_argv st = [] -> forallb nospace toks = true ->
  st_argv (fold_left merge toks st) = drop_while has_equals toks.
Proof.
  revert st; induction toks as [|t toks IH]; intros st Hst Hns; simpl in *.
  - exact Hst.
  - apply andb_true_iff in Hns as [Ht Hns].
    rewrite (has_equals_eq_of t Ht).
    destruct (eq_of t 0 None) as [n|] eqn:He.
    + apply IH; [|exact Hns]. unfold merge, parse_token. rewrite He, Hst.
      destruct (envp_replace _ _ _ _); reflexivity.
    + rewrite (merge_argv_cons (merge st t) t []); [reflexivity|].
      unfold merge, parse_token. now rewrite He, Hst.
Qed.

Lemma strings_of_terminated l : strings_of (map Some l ++ [None]) = l.
Proof. induction l; simpl; congruence. Qed.

Lemma launcher_argv environ icon_file cmd :
  argv (panel_launcher_new environ icon_file cmd)
  = map Some (drop_while has_equals (cmd_tokens cmd)) ++ [None].
Proof.
  unfold panel_launcher_new; simpl.
  rewrite parse_loop_tokens, merge_argv;
    [reflexivity | reflexivity | apply cmd_tokens_nospace].
Qed.

Lemma launcher_envp environ icon_file cmd :
  envp (panel_launcher_new environ icon_file cmd)
  = map Some (st_envp (fold_left merge (cmd_tokens cmd)
                         {| st_envp := environ; st_argv := [] |})) ++ [None].
Proof. unfold panel_launcher_new; simpl. now rewrite parse_loop_tokens. Qed.

Lemma merge_envp_cons st a l toks :
  st_argv st = a :: l ->
  st_envp (fold_left merge toks st) = st_envp st.
Proof.
  revert st a l; induction toks as [|t toks IH]; intros st a l Hst; simpl.
  - reflexivity.
  - assert (H : st_argv (merge st t) = (a :: l) ++ [t]
                /\ st_envp (merge st t) = st_envp st).
    { unfold merge, parse_token. rewrite Hst.
      destruct (eq_of t 0 None); auto. }
    destruct H as [Ha He]. simpl in Ha. now rewrite (IH _ _ _ Ha).
Qed.

Lemma merge_envp_overlay st toks :
  st_argv st = [] -> forallb nospace toks = true ->
  st_envp (fold_left merge toks st)
  = st_envp (fold_left merge (take_while has_equals toks) st).
Proof.
  revert st; induction toks as [|t toks IH]; intros st Hst Hns; simpl in *.
  - reflexivity.
  - apply andb_true_iff in Hns as [Ht Hns].
    rewrite (has_equals_eq_of t Ht).
    destruct (eq_of t 0 None) as [n|] eqn:He; simpl.
    + apply IH; [|exact Hns]. unfold merge, parse_token. rewrite He, Hst.
      destruct (envp_replace _ _ _ _); reflexivity.
    + rewrite (merge_envp_cons (merge st t) t []).
      * unfold merge, parse_token. now rewrite He, Hst.
      * unfold merge, parse_token. now rewrite He, Hst.
Qed.

(** The environment of a launcher is [environ] with the tokens of the
    overlay merged in, in their order: the overlay is all of the command
    line that the environment depends on. *)
Lemma launcher_envp_overlay environ icon_file cmd :
  envp (panel_launcher_new environ icon_file cmd)
  = map Some (st_envp (fold_left merge (overlay cmd)
                         {| st_envp := environ; st_argv := [] |})) ++ [None].
Proof.
  rewrite launcher_envp. unfold overlay.
  rewrite merge_envp_overlay; [reflexivity | reflexivity |].
  apply cmd_tokens_nospace.
Qed.

Lemma reconstruct_tokens environ icon_file cmd :
  reconstruct (overlay cmd) (argv (panel_launcher_new environ icon_file cmd))
  = String.concat " " (cmd_tokens cmd).
Proof.
  unfold reconstruct, overlay.
  now rewrite launcher_argv, strings_of_terminated, take_drop_while.
Qed.

Lemma equals_after_plain_not_blank cmd :
  equals_after_plain cmd = true -> blank cmd = false.
Proof.
  intros H. destruct (blank cmd) eqn:Hb; [|reflexivity].
  unfold equals_after_plain in H.
  destruct cmd as [|c s]; [discriminate|].
  unfold blank in Hb.
  destruct (skip_space (String c s)) eqn:Hs; [|discriminate].
  rewrite cmd_tokens_step in H by discriminate.
  assert (Hc : isspace c = true).
  { simpl in Hs. destruct (isspace c); [reflexivity|discriminate]. }
  simpl in H. rewrite Hc in H. simpl in H.
  simpl in Hs. rewrite Hc in Hs. rewrite Hc, Hs in H.
  rewrite cmd_tokens_equation_1 in H. discriminate.
Qed.

End LauncherParse.

(** ** Overrides read back from a parsed launcher *)

Section LauncherOverrides.

Import Panel.
Local Open Scope string_scope.
Local Open Scope list_scope.

(** A string that begins with another. *)
Fixpoint starts_with (pre s : string) : bool :=
  match pre, s with
  | EmptyString, _ => true
  | String a pre', String b s' => Ascii.eqb b a && starts_with pre' s'
  | String _ _, EmptyString => false
  end.


(** A token with exactly one '='. *)
Fixpoint one_equals (t : string) : bool :=
  match t with
  | EmptyString => false
  | String c t' => if is_equals c then negb (has_equals t') else one_equals t'
  end.

(** The entries of a parsed environment that are not the environment's
    own: those that differ from the entry of [environ] at their place, and
    those after its end. *)
Fixpoint overrides (environ e : list string) : list string :=
  match e with
  | [] => []
  | f :: e' =>
      match environ with
      | [] => f :: overrides [] e'
      | x :: environ' =>
          if String.eqb f x then overrides environ' e'
          else f :: overrides environ' e'
      end
  end.








Lemma strncmp_zero_starts_with e b :
  strncmp_zero e b (String.length b) = starts_with b e.
Proof.
  revert e; induction b as [|c b IH]; intros e; [reflexivity|].
  destruct e as [|x e]; simpl; [reflexivity|].
  rewrite IH. now destruct (Ascii.eqb x c).
Qed.

Lemma eq_of_no_equals s off eq : has_equals s = false -> eq_of s off eq = eq.
Proof.
  revert off eq; induction s as [|c s IH]; intros off eq H; simpl in *;
    [reflexivity|].
  apply orb_false_iff in H as [Hc Hs]. rewrite Hc.
  destruct (isspace c); [reflexivity|]. now apply IH.
Qed.


Lemma one_equals_has_equals t : one_equals t = true -> has_equals t = true.
Proof.
  induction t as [|c t IH]; [discriminate|]. simpl.
  destruct (is_equals c); [reflexivity|exact IH].
Qed.



















Lemma overrides_same E : overrides E E = [].
Proof.
  induction E as [|e E IH]; [reflexivity|]. simpl.
  now rewrite String.eqb_refl.
Qed.

(** *** Whatever the tokens: the overrides read back are overlay tokens *)














End LauncherOverrides.

Section LauncherProperties.

Import Panel.
Local Open Scope string_scope.
Local Open Scope list_scope.

(** C2.  The environment scan of [panel_add_launcher] compares only the
    characters before the last '=' of the token, so it overwrites a variable
    whose name merely begins with the token's name ([FOOBAR] for [FOO=2]),
    and for a token with two '=' it misses the variable of the same name
    ([A=x] for [A=b=c]) and appends instead. *)
Theorem launcher_env_replaces_on_prefix :
  envp (panel_launcher_new ["FOOBAR=1"; "HOME=/root"] "icon.png" "FOO=2 prog")
  = [Some "FOO=2"; Some "HOME=/root"; None]
  /\ envp (panel_launcher_new ["A=x"] "icon.png" "A=b=c prog")
     = [Some "A=x"; Some "A=b=c"; None].
Proof. split; reflexivity. Qed.




(** The words of a command line, its runs of characters that are not
    spaces: the tokens of the scan that are not empty. *)
Definition words (cmd : string) : list string :=
  filter nonempty (cmd_tokens cmd).

Lemma words_at_word cmd : at_word cmd = true -> words cmd = cmd_tokens cmd.
Proof.
  intros Hw. unfold words. pose proof (cmd_tokens_good cmd Hw) as Hg.
  induction (cmd_tokens cmd) as [|t ts IH]; [reflexivity|].
  simpl in *. apply andb_true_iff in Hg as [Ht Hts].
  unfold good in Ht. apply andb_true_iff in Ht as [_ Ht].
  rewrite Ht. now rewrite IH.
Qed.

(** C10, as amended.  [panel_add_launcher] ends [envp] and [argv] with a
    NULL entry, the only NULL of each; and for a command line that does not
    begin with a space and all of whose words hold a '=', [argv] is the
    NULL alone, so that in the child of the fork [panel_launcher_activate]
    calls [execve] with a NULL path. *)
Theorem launcher_only_assignments :
  (forall environ icon_file cmd,
     exists e a,
       envp (panel_launcher_new environ icon_file cmd) = map Some e ++ [None]
       /\ argv (panel_launcher_new environ icon_file cmd) = map Some a ++ [None])
  /\ (forall environ icon_file cmd,
        at_word cmd = true ->
        forallb has_equals (words cmd) = true ->
        let l := panel_launcher_new environ icon_file cmd in
        argv l = [None]
        /\ panel_launcher_activate l 0 = child_execve None [None] (envp l)
        /\ forall button,
             panel_launcher_button_handler l button
               WL_POINTER_BUTTON_STATE_RELEASED 0
             = Some (child_execve None [None] (envp l))).
Proof.
  split.
  - intros. eexists; eexists; split; reflexivity.
  - intros environ icon_file cmd Hw Hall l.
    rewrite words_at_word in Hall by exact Hw.
    assert (Ha : argv l = [None]).
    { subst l. rewrite launcher_argv.
      replace (drop_while has_equals (cmd_tokens cmd)) with (@nil string);
        [reflexivity|].
      induction (cmd_tokens cmd) as [|t ts IH]; [reflexivity|].
      simpl in *. apply andb_true_iff in Hall as [-> Hts]. auto. }
    assert (Hx : panel_launcher_activate l 0 = child_execve None [None] (envp l)).
    { unfold panel_launcher_activate. now rewrite Ha. }
    repeat split; [exact Ha | exact Hx |].
    intros button. simpl. now rewrite Hx.
Qed.

Lemma launcher_only_assignments_witness :
  argv (panel_launcher_new ["A=0"] "icon.png" "A=1 B=2") = [None].
Proof.
  apply (proj2 launcher_only_assignments ["A=0"] "icon.png" "A=1 B=2");
    reflexivity.
Defined.

(** C10 fails as stated: every word of the line " A=1 B=2" holds a '=', but
    the line begins with a space, so the scan starts with an empty token,
    which is plain: the empty string is [argv[0]], both assignments are
    arguments, and the child calls [execve] with the empty path. *)
Lemma launcher_only_assignments_counterexample :
  let l := panel_launcher_new ["A=0"] "icon.png" " A=1 B=2" in
  words " A=1 B=2" = ["A=1"; "B=2"]
  /\ forallb has_equals (words " A=1 B=2") = true
  /\ argv l = [Some ""; Some "A=1"; Some "B=2"; None]
  /\ envp l = [Some "A=0"; None]
  /\ panel_launcher_activate l 0
     = child_execve (Some "")
         [Some ""; Some "A=1"; Some "B=2"; None] [Some "A=0"; None].
Proof. vm_compute. repeat split. Qed.

(** Without a completed section the handler is not called: the steps run
    to the end and leave the panel as it was. *)
Lemma config_steps_no_done environ st p k :
  existsb (fun s => match s with launcher_done => true | _ => false end)
    st = false ->
  exists k', config_steps environ st (p, k) = Some (p, k').
Proof.
  revert k; induction st as [|s st IH]; intros k Hst; [now exists k|].
  simpl in Hst. apply orb_false_iff in Hst as [Hs Hst].
  destruct s; try discriminate; simpl; apply IH; exact Hst.
Qed.

(** C4, as amended.  When no [launcher] section is completed while the file
    is read, [panel_read_config] returns and leaves the panel with exactly
    one launcher more, the default terminal, when [parse_config_file]
    returned a negative value, and with none more when it did not. *)
Theorem panel_read_config_default (DATADIR BINDIR : string)
    (environ : list string) (run : config_run) (p : panel) (k : config_keys) :
  existsb (fun s => match s with launcher_done => true | _ => false end)
    (steps run) = false ->
  option_map (fun r => launcher_list (fst (fst r)))
    (panel_read_config DATADIR BINDIR environ run (p, k))
  = Some (launcher_list p
            ++ (if (ret run <? 0)%Z
                then [panel_launcher_new environ
                        (DATADIR ++ "/weston/terminal.png")%string
                        (BINDIR ++ "/weston-terminal")%string]
                else [])).
Proof.
  intros Hno. unfold panel_read_config, parse_config_file.
  destruct (config_steps_no_done environ (steps run) p k Hno) as [k' ->].
  destruct (ret run <? 0)%Z; simpl; [reflexivity|].
  now rewrite app_nil_r.
Qed.

Lemma panel_read_config_default_witness :
  option_map (fun r => launcher_list (fst (fst r)))
    (panel_read_config "/usr/share" "/usr/bin" []
       {| steps := [assign_panel_color 0]; ret := -1 |}
       (panel_create 3, initial_keys))
  = Some [panel_launcher_new [] "/usr/share/weston/terminal.png"
            "/usr/bin/weston-terminal"].
Proof.
  apply (panel_read_config_default "/usr/share" "/usr/bin" []
           {| steps := [assign_panel_color 0]; ret := -1 |}
           (panel_create 3) initial_keys).
  reflexivity.
Defined.

(** C4 fails as stated: a configuration read without error
    ([parse_config_file] returning 0) and without any [launcher] section
    leaves the panel with no launcher at all. *)
Lemma panel_read_config_counterexample :
  option_map (fun r => launcher_list (fst (fst r)))
    (panel_read_config "/usr/share" "/usr/bin" []
       {| steps := [assign_panel_color 0]; ret := 0 |}
       (panel_create 3, initial_keys))
  = Some [].
Proof. reflexivity. Qed.

(** C5, as amended.  [panel_launcher_button_handler] activates the launcher
    on every button release delivered to its widget and on no press; the
    button released and the launcher's [focused] flag make no
    difference. *)
Theorem launcher_button_release (l : panel_launcher) (button : Z)
    (state : wl_pointer_button_state) (pid : Z) :
  (panel_launcher_button_handler l button state pid <> None
   <-> state = WL_POINTER_BUTTON_STATE_RELEASED)
  /\ panel_launcher_button_handler l button WL_POINTER_BUTTON_STATE_RELEASED pid
     = Some (panel_launcher_activate l pid)
  /\ forall button' f,
       panel_launcher_button_handler (set_focused f l) button' state pid
       = panel_launcher_button_handler l button state pid.
Proof.
  split; [|split].
  - destruct state; simpl; split; congruence.
  - reflexivity.
  - intros button' f. destruct state; reflexivity.
Qed.

(** C5 fails as stated: the release of the right button on a launcher that
    is not hovered ([focused] is 0) activates it, the child calling
    [execve] with the parsed command. *)
Lemma launcher_button_counterexample :
  let l := panel_launcher_new ["HOME=/root"] "icon.png" "/usr/bin/weston-terminal" in
  focused l = 0%Z
  /\ panel_launcher_button_handler l BTN_RIGHT WL_POINTER_BUTTON_STATE_RELEASED 0
     = Some (child_execve (Some "/usr/bin/weston-terminal")
               [Some "/usr/bin/weston-terminal"; None]
               [Some "HOME=/root"; None]).
Proof. split; reflexivity. Qed.

End LauncherProperties.

(** ** The painted flags *)

Section PaintedFlags.

Definition panel_ops (ops : list Panel.panel_op) (p : Panel.panel) : Panel.panel :=
  fold_left (fun q o => Panel.panel_do o q) ops p.

Definition background_ops (ops : list Background.background_op)
    (b : Background.background) : Background.background :=
  fold_left (fun q o => Background.background_do o q) ops b.

Lemma panel_do_painted o p :
  Panel.painted (Panel.panel_do o p)
  = if Panel.is_redraw o then 1 else Panel.painted p.
Proof. destruct o; reflexivity. Qed.

Lemma background_do_painted o b :
  Background.painted (Background.background_do o b)
  = if Background.is_draw o then -1 else Background.painted b.
Proof. destruct o; reflexivity. Qed.

Lemma panel_ops_painted ops p :
  Panel.painted (panel_ops ops p)
  = if existsb Panel.is_redraw ops then 1 else Panel.painted p.
Proof.
  revert p; induction ops as [|o ops IH]; intros p; [reflexivity|].
  unfold panel_ops in *; simpl. rewrite IH, panel_do_painted.
  destruct (Panel.is_redraw o); simpl; [|reflexivity].
  now destruct (existsb _ ops).
Qed.

Lemma background_ops_painted ops b :
  Background.painted (background_ops ops b)
  = if existsb Background.is_draw ops then -1 else Background.painted b.
Proof.
  revert b; induction ops as [|o ops IH]; intros b; [reflexivity|].
  unfold background_ops in *; simpl. rewrite IH, background_do_painted.
  destruct (Background.is_draw o); simpl; [|reflexivity].
  now destruct (existsb _ ops).
Qed.

(** C6.  A panel and a background are created with the flag at 0.  After any
    handlers of their files have run on them, the flag of a panel is 1 if
    [panel_redraw_handler] was among them and what it was before if not,
    and the flag of a background (a one-bit field, read back as -1) is set
    if [background_draw] was among them and what it was before if not: the
    first redraw sets the flag and nothing clears it. *)
Theorem painted_flag_set_once :
  (forall timerfd, Panel.painted (Panel.panel_create timerfd) = 0)
  /\ Background.painted Background.background_create = 0
  /\ (forall ops p,
        Panel.panel_painted (panel_ops ops p)
        = if existsb Panel.is_redraw ops then 1 else Panel.painted p)
  /\ (forall ops b,
        Background.background_painted (background_ops ops b)
        = if existsb Background.is_draw ops
          then Background.store_bitfield 1 1 else Background.painted b)
  /\ Background.store_bitfield 1 1 <> 0.
Proof.
  split; [reflexivity|]. split; [reflexivity|].
  split; [exact panel_ops_painted|].
  split; [exact background_ops_painted|].
  discriminate.
Qed.

End PaintedFlags.

(** ** The transform of the background image *)

Section BackgroundTransform.

Import Background.
Local Open Scope float_scope.

(** The calls of [background_draw] for an image of [im_w] by [im_h] that
    loaded, in fill mode [mode]. *)
Definition drawn (file : string) (col flag mode im_w im_h : Z)
    (allocation : rectangle) : list cairo_call :=
  snd (background_draw
         {| image := Some file; color := col; painted := flag; type := mode |}
         (Some (im_w, im_h)) allocation).

(** C8.  With [sx = im_w / aw] and [sy = im_h / ah] in double arithmetic,
    [background_draw] sets the pattern matrix to the scale by [sx] and [sy]
    in mode SCALE; to the translation by [((im_w - s * aw) * 0.5,
    (im_h - s * ah) * 0.5)] followed by the scale by [s] in both
    directions in mode SCALE_CROP, [s] being the smaller of [sx] and [sy];
    and in mode TILE it sets no matrix and sets the extend mode to
    repeat. *)
Theorem background_pattern_transform (file : string) (col flag : Z)
    (im_w im_h : Z) (allocation : rectangle) :
  let w := double_of_int im_w in
  let h := double_of_int im_h in
  let aw := double_of_int (width allocation) in
  let ah := double_of_int (height allocation) in
  let sx := w / aw in
  let sy := h / ah in
  let s := if PrimFloat.ltb sx sy then sx else sy in
  drawn file col flag BACKGROUND_SCALE im_w im_h allocation
  = [cairo_set_source_rgba 0 0 0.2 1; cairo_paint;
     cairo_matrix_init_scale sx sy; cairo_pattern_set_matrix;
     cairo_set_source; cairo_paint]
  /\ drawn file col flag BACKGROUND_SCALE_CROP im_w im_h allocation
     = [cairo_set_source_rgba 0 0 0.2 1; cairo_paint;
        cairo_matrix_init_translate ((w - s * aw) * 0.5) ((h - s * ah) * 0.5);
        cairo_matrix_scale s s; cairo_pattern_set_matrix;
        cairo_set_source; cairo_paint]
  /\ drawn file col flag BACKGROUND_TILE im_w im_h allocation
     = [cairo_set_source_rgba 0 0 0.2 1; cairo_paint;
        cairo_pattern_set_extend_repeat;
        cairo_set_source; cairo_paint].
Proof. repeat split. Qed.

(** An image of 800 by 600 on an allocation of 400 by 400: the ratios are
    2 and 1.5, the crop scales by 1.5 and shifts by 100 across. *)
Example background_crop_800_600 :
  drawn "pattern.png" 0xff002244 0 BACKGROUND_SCALE_CROP 800 600
    {| x := 0; y := 0; width := 400; height := 400 |}
  = [cairo_set_source_rgba 0 0 0.2 1; cairo_paint;
     cairo_matrix_init_translate 100 0; cairo_matrix_scale 1.5 1.5;
     cairo_pattern_set_matrix; cairo_set_source; cairo_paint].
Proof. reflexivity. Qed.

End BackgroundTransform.

(** ** The unlock dialog *)

Section UnlockDialog.

Import Unlock.

Definition is_button (ev : dialog_event) : bool :=
  match ev with dialog_button _ _ => true | _ => false end.

Definition left_release (ev : dialog_event) : bool :=
  match ev with
  | dialog_button button WL_POINTER_BUTTON_STATE_RELEASED => button =? BTN_LEFT
  | _ => false
  end.

(** The handler on a dialog whose back pointer is set. *)
Lemma button_handler_cases f c u button state :
  let d := {| button_focused := f; closing := c; dialog_unlocker := Some u |} in
  unlock_dialog_button_handler d button state
  = Some (if ((c =? 0) && left_release (dialog_button button state))%bool
          then ({| button_focused := f; closing := 1;
                   dialog_unlocker := Some u |}, [unlocker_task])
          else (d, [])).
Proof.
  unfold unlock_dialog_button_handler, left_release; simpl.
  destruct (button =? BTN_LEFT), state, (c =? 0); reflexivity.
Qed.

Lemma dialog_events_pointer evs f c u :
  exists f',
    dialog_events evs
      {| button_focused := f; closing := c; dialog_unlocker := Some u |}
    = Some ({| button_focused := f';
               closing := if ((c =? 0) && existsb left_release evs)%bool
                          then 1 else c;
               dialog_unlocker := Some u |},
            if ((c =? 0) && existsb left_release evs)%bool
            then [unlocker_task] else []).
Proof.
  revert f c; induction evs as [|ev evs IH]; intros f c.
  - exists f. simpl. now rewrite andb_false_r.
  - destruct ev as [| |button state].
    + cbn [dialog_events existsb left_release orb].
      unfold unlock_dialog_widget_enter_handler; simpl. apply IH.
    + cbn [dialog_events existsb left_release orb].
      unfold unlock_dialog_widget_leave_handler; simpl. apply IH.
    + cbn [dialog_events existsb]. rewrite button_handler_cases.
      destruct (c =? 0) eqn:Hc; cbn [andb].
      * destruct (left_release (dialog_button button state)); cbn [orb].
        -- destruct (IH f 1) as [f' ->]. exists f'. reflexivity.
        -- destruct (IH f c) as [f' ->]. exists f'. rewrite Hc. cbn [andb].
           now destruct (existsb left_release evs).
      * destruct (IH f c) as [f' ->]. exists f'. rewrite Hc. reflexivity.
Qed.

Lemma dialog_events_null evs f c :
  match dialog_events evs
          {| button_focused := f; closing := c; dialog_unlocker := None |} with
  | None => existsb is_button evs = true
  | Some (d', ts) =>
      existsb is_button evs = false /\ ts = []
      /\ closing d' = c /\ dialog_unlocker d' = None
  end.
Proof.
  revert f; induction evs as [|ev evs IH]; intros f.
  - simpl; auto.
  - destruct ev as [| |button state]; cbn [dialog_events existsb is_button orb].
    + apply IH.
    + apply IH.
    + reflexivity.
Qed.

(** C7.  [unlock_dialog_create] leaves the back pointer [dialog->unlocker]
    NULL and nothing assigns it, while the button handler begins by reading
    [dialog->unlocker->desktop]: on a dialog with a NULL back pointer every
    button event faults, whatever the button and the flags; over any
    events on such a dialog no task is deferred and [closing] is never
    set, and the events are delivered to the end only if no button event
    is among them.  So with an unlocker in place the lock request shows the
    dialog and its first button event ends the process.  With the back
    pointer set, the handler's guard is the one described: the one task is
    deferred, and [closing] set, exactly if the dialog was not closing and
    a release of the left button is among the events. *)
Theorem unlock_button_defers_once :
  fst unlock_dialog_create
  = {| button_focused := 0; closing := 0; dialog_unlocker := None |}
  /\ (forall f c button state,
        unlock_dialog_button_handler
          {| button_focused := f; closing := c; dialog_unlocker := None |}
          button state = None)
  /\ (forall evs f c,
        match dialog_events evs
                {| button_focused := f; closing := c;
                   dialog_unlocker := None |} with
        | None => existsb is_button evs = true
        | Some (d', ts) =>
            existsb is_button evs = false /\ ts = []
            /\ closing d' = c /\ dialog_unlocker d' = None
        end)
  /\ (forall iv os pt button state,
        let d := {| Desktop.interface_version := iv;
                    Desktop.unlocker := Some {| dialog := None |};
                    Desktop.outputs := os;
                    Desktop.painted := pt |} in
        snd (Desktop.run [Desktop.ev_prepare_lock_surface;
                          Desktop.ev_dialog_button button state] d)
        = [Desktop.send desktop_shell_set_lock_surface; Desktop.fault])
  /\ (forall evs f c u,
        exists d',
          dialog_events evs
            {| button_focused := f; closing := c; dialog_unlocker := Some u |}
          = Some (d', if ((c =? 0) && existsb left_release evs)%bool
                      then [unlocker_task] else [])
          /\ closing d' = (if ((c =? 0) && existsb left_release evs)%bool
                           then 1 else c)).
Proof.
  split; [reflexivity|].
  split; [reflexivity|].
  split; [exact dialog_events_null|].
  split; [reflexivity|].
  intros evs f c u. destruct (dialog_events_pointer evs f c u) as [f' H].
  eexists. split; [exact H|reflexivity].
Qed.

End UnlockDialog.

(** ** The desktop: lock handshake and readiness barrier *)

Section DesktopProperties.

Import Desktop.

Definition ready : effect := send desktop_shell_desktop_ready.

(** The desktop-ready notifications in a trace. *)
Definition readies (tr : list effect) : list effect := filter is_ready tr.

Lemma readies_app t1 t2 : readies (t1 ++ t2) = readies t1 ++ readies t2.
Proof. apply filter_app. Qed.

Lemma readies_map_defer ts : readies (map defer ts) = [].
Proof. induction ts as [|t ts IH]; [reflexivity|exact IH]. Qed.

Lemma in_readies tr : In ready tr <-> In ready (readies tr).
Proof.
  unfold readies. rewrite filter_In. intuition.
Qed.

(** *** The unlocker *)

Lemma step_unlocker_none e d :
  unlocker d = None -> unlocker (fst (step e d)) = None.
Proof.
  intros Hu. destruct e as [g|k o|k o| |button state| ]; simpl.
  - destruct g; simpl; auto.
  - destruct (Panel.is_redraw o && has_panel k d)%bool; simpl; [|exact Hu].
    unfold check_desktop_ready; simpl.
    destruct (_ && _)%bool; simpl; exact Hu.
  - destruct (Background.is_draw o && has_background k d)%bool; simpl;
      [|exact Hu].
    unfold check_desktop_ready; simpl.
    destruct (_ && _)%bool; simpl; exact Hu.
  - unfold desktop_shell_prepare_lock_surface. now rewrite Hu.
  - unfold on_dialog. now rewrite Hu.
  - now rewrite Hu.
Qed.

Lemma run_unlocker_none evs d :
  unlocker d = None -> unlocker (fst (run evs d)) = None.
Proof.
  revert d; induction evs as [|e evs IH]; intros d Hu; [exact Hu|].
  simpl. pose proof (step_unlocker_none e d Hu) as H1.
  destruct (step e d) as [d1 r1]. specialize (IH d1 H1).
  destruct (existsb is_fault r1); [exact H1|].
  now destruct (run evs d1).
Qed.

(** C1.  [unlocker_create] returns 0, so the desktop of [main] has no
    unlocker, and none after any events; with [key_locking] at its value 1,
    [desktop_shell_prepare_lock_surface] then sends the unlock request at
    once and no dialog is made.  The handler itself takes that path exactly
    when [key_locking] is 0 or the desktop has no unlocker. *)
Theorem prepare_lock_unlocks_at_once :
  Unlock.unlocker_create = None
  /\ (forall evs,
        let d := fst (run evs main_start) in
        unlocker d = None
        /\ step ev_prepare_lock_surface d = (d, [send desktop_shell_unlock]))
  /\ (forall locking d,
        snd (desktop_shell_prepare_lock_surface locking d) = [desktop_shell_unlock]
        <-> locking = 0 \/ unlocker d = None).
Proof.
  split; [reflexivity|]. split.
  - intros evs d.
    assert (Hu : unlocker d = None) by (apply run_unlocker_none; reflexivity).
    split; [exact Hu|].
    simpl. unfold desktop_shell_prepare_lock_surface. now rewrite Hu.
  - intros locking d. unfold desktop_shell_prepare_lock_surface.
    destruct (unlocker d) as [u|]; [|simpl; intuition].
    destruct (locking =? 0) eqn:Hl.
    + apply Z.eqb_eq in Hl. simpl; intuition.
    + apply Z.eqb_neq in Hl. unfold Unlock.unlocker_lock.
      destruct (Unlock.dialog u); simpl;
        (split; [discriminate | intros [H|H]; [contradiction | discriminate]]).
Qed.

(** *** The readiness barrier *)

Lemma check_desktop_ready_cases d :
  (painted d = 0
   /\ is_desktop_painted (outputs d) <> 0
   /\ check_desktop_ready d
      = ({| interface_version := interface_version d;
            unlocker := unlocker d;
            outputs := outputs d;
            painted := 1 |},
         if 2 <=? interface_version d then [desktop_shell_desktop_ready] else []))
  \/ ((painted d <> 0 \/ is_desktop_painted (outputs d) = 0)
      /\ check_desktop_ready d = (d, [])).
Proof.
  unfold check_desktop_ready.
  destruct (painted d =? 0) eqn:Hp; simpl.
  - apply Z.eqb_eq in Hp.
    destruct (is_desktop_painted (outputs d) =? 0) eqn:Hi; simpl.
    + apply Z.eqb_eq in Hi. right; auto.
    + apply Z.eqb_neq in Hi. left; auto.
  - apply Z.eqb_neq in Hp. right; auto.
Qed.

(** What one event does to the flag and to the notification: nothing, or
    the one transition. *)
Definition quiet (d d' : desktop) (tr : list effect) : Prop :=
  painted d' = painted d /\ readies tr = [].

Definition fires (d d' : desktop) (tr : list effect) : Prop :=
  painted d = 0 /\ painted d' = 1
  /\ is_desktop_painted (outputs d') <> 0
  /\ interface_version d' = interface_version d
  /\ readies tr = if 2 <=? interface_version d then [ready] else [].

Lemma check_quiet_or_fires d0 d :
  painted d = painted d0 -> interface_version d = interface_version d0 ->
  let p := sends (check_desktop_ready d) in
  quiet d0 (fst p) (snd p) \/ fires d0 (fst p) (snd p).
Proof.
  intros Hp Hv p; subst p.
  destruct (check_desktop_ready_cases d) as [(H0 & Hi & ->)|(_ & ->)].
  - right. unfold fires, sends; simpl. rewrite <- Hp, <- Hv.
    repeat split; auto.
    now destruct (2 <=? interface_version d).
  - left. unfold quiet; simpl; auto.
Qed.

Lemma step_quiet_or_fires e d :
  quiet d (fst (step e d)) (snd (step e d))
  \/ fires d (fst (step e d)) (snd (step e d)).
Proof.
  destruct e as [g|k o|k o| |button state| ]; simpl.
  - left. destruct g; simpl; split; try reflexivity.
    destruct panel_allocated; reflexivity.
  - destruct (Panel.is_redraw o && has_panel k d)%bool.
    + apply check_quiet_or_fires; reflexivity.
    + left; split; reflexivity.
  - destruct (Background.is_draw o && has_background k d)%bool.
    + apply check_quiet_or_fires; reflexivity.
    + left; split; reflexivity.
  - left. unfold desktop_shell_prepare_lock_surface.
    destruct (unlocker d) as [u|]; [|split; reflexivity].
    destruct (key_locking =? 0); [split; reflexivity|].
    unfold Unlock.unlocker_lock. destruct (Unlock.dialog u); split; reflexivity.
  - left. unfold on_dialog.
    destruct (unlocker d) as [u|]; [|split; reflexivity].
    destruct (Unlock.dialog u) as [dl|]; [|split; reflexivity].
    destruct (Unlock.unlock_dialog_button_handler dl button state)
      as [[dl' ts]|]; [|split; reflexivity].
    split; [reflexivity|]. apply readies_map_defer.
  - left. destruct (unlocker d) as [u|]; [|split; reflexivity].
    unfold Unlock.unlock_dialog_finish.
    destruct (Unlock.dialog u); split; reflexivity.
Qed.

Lemma run_readies evs d :
  (length (readies (snd (run evs d))) <= 1)%nat
  /\ (painted d <> 0 ->
      readies (snd (run evs d)) = []
      /\ painted (fst (run evs d)) = painted d).
Proof.
  revert d; induction evs as [|e evs IH]; intros d.
  - simpl; auto.
  - simpl. destruct (step_quiet_or_fires e d) as [H|H];
      destruct (step e d) as [d1 t1]; simpl in H;
      destruct (IH d1) as [IH1 IH2];
      (destruct (existsb is_fault t1);
       [|destruct (run evs d1) as [d2 t2]; simpl in *; rewrite readies_app]);
      simpl.
    + destruct H as [Hp Ht]. rewrite Ht. simpl. auto.
    + destruct H as [Hp Ht]. rewrite Ht. simpl. split; [exact IH1|].
      intros Hd. rewrite <- Hp in Hd. destruct (IH2 Hd) as [-> ->]. auto.
    + destruct H as (H0 & H1 & _ & _ & Ht). rewrite Ht. split.
      * destruct (2 <=? interface_version d); simpl; lia.
      * intros Hd; contradiction.
    + destruct H as (H0 & H1 & _ & _ & Ht).
      assert (Hd1 : painted d1 <> 0) by (rewrite H1; discriminate).
      destruct (IH2 Hd1) as [-> _]. rewrite app_nil_r, Ht. split.
      * destruct (2 <=? interface_version d); simpl; lia.
      * intros Hd; contradiction.
Qed.

(** C3.  Over any run of events at most one desktop-ready notification is
    sent, and none once the desktop flag is set, which then stays set.  An
    event that sets the flag leaves every tracked output with its panel (if
    any) and its background (if any) painted, and sends the notification
    exactly when the interface version is at least 2; an event that leaves
    the flag at 0 sends none.  With two outputs of one unpainted panel each,
    the redraw of the first panel sends nothing and leaves the flag at 0,
    and the redraw of the second sets it and notifies; from the start of
    [main] with two outputs announced, the barrier is silent while one of
    the four surfaces is unpainted and fires when the last is drawn. *)
Theorem readiness_barrier :
  (forall evs d, (length (readies (snd (run evs d))) <= 1)%nat)
  /\ (forall evs d,
        painted d <> 0 ->
        readies (snd (run evs d)) = [] /\ painted (fst (run evs d)) <> 0)
  /\ (forall e d,
        painted d = 0 -> painted (fst (step e d)) <> 0 ->
        is_desktop_painted (outputs (fst (step e d))) <> 0
        /\ (In ready (snd (step e d)) <-> 2 <= interface_version d))
  /\ (forall e d,
        painted (fst (step e d)) = 0 -> ~ In ready (snd (step e d)))
  /\ (forall v u p1 p2,
        Panel.painted p1 = 0 -> Panel.painted p2 = 0 ->
        let o1 := {| panel := Some p1; background := None |} in
        let o2 := {| panel := Some p2; background := None |} in
        let d := {| interface_version := v; unlocker := u;
                    outputs := [o1; o2]; painted := 0 |} in
        let s1 := step (ev_panel 0 Panel.op_redraw) d in
        let s2 := step (ev_panel 1 Panel.op_redraw) (fst s1) in
        snd s1 = [] /\ painted (fst s1) = 0
        /\ snd s2 = (if 2 <=? v then [ready] else [])
        /\ painted (fst s2) = 1)
  /\ (let a := {| x := 0; y := 0; width := 1024; height := 768 |} in
      let evs := [ev_global (global_desktop_shell 2);
                  ev_global (global_wl_output true 3);
                  ev_global (global_wl_output true 4);
                  ev_panel 0 Panel.op_redraw;
                  ev_background 0 (Background.op_draw None a);
                  ev_panel 1 Panel.op_redraw] in
      readies (snd (run evs main_start)) = []
      /\ painted (fst (run evs main_start)) = 0
      /\ readies (snd (run (evs ++ [ev_background 1 (Background.op_draw None a)])
                         main_start)) = [ready]).
Proof.
  split; [intros; apply run_readies|].
  split.
  { intros evs d Hd. destruct (run_readies evs d) as [_ H].
    destruct (H Hd) as [Hr Hp]. split; [exact Hr|]. now rewrite Hp. }
  split.
  { intros e d H0 H1.
    destruct (step_quiet_or_fires e d) as [[Hp _]|(_ & _ & Hi & _ & Ht)].
    - rewrite Hp in H1. contradiction.
    - split; [exact Hi|]. rewrite in_readies, Ht.
      destruct (2 <=? interface_version d) eqn:Hv.
      + apply Z.leb_le in Hv. simpl; intuition.
      + apply Z.leb_gt in Hv. simpl; intuition lia. }
  split.
  { intros e d H0.
    destruct (step_quiet_or_fires e d) as [[_ Ht]|(_ & H1 & _)].
    - rewrite in_readies, Ht. auto.
    - rewrite H1 in H0. discriminate. }
  split.
  { intros v u [l1 c1 f1] [l2 c2 f2] H1 H2. simpl in H1, H2. subst f1 f2.
    cbn. repeat split. now destruct (2 <=? v). }
  cbn. repeat split.
Qed.

Lemma readiness_barrier_witness :
  let d := {| interface_version := 2; unlocker := None;
              outputs := [{| panel := Some (Panel.panel_create 3);
                             background := None |}];
              painted := 0 |} in
  is_desktop_painted (outputs (fst (step (ev_panel 0 Panel.op_redraw) d))) <> 0
  /\ (In ready (snd (step (ev_panel 0 Panel.op_redraw) d)) <-> 2 <= 2).
Proof.
  intros d.
  apply (proj1 (proj2 (proj2 readiness_barrier)) (ev_panel 0 Panel.op_redraw) d).
  - reflexivity.
  - simpl. lia.
Defined.

End DesktopProperties.

(** * Further functions of the four files *)

(** ** desktop-shell-panel.c: what the parsed launcher holds *)

Section LauncherArguments.

Import Panel.
Local Open Scope string_scope.
Local Open Scope list_scope.

(** [launcher->path] after [panel_add_launcher]: the buffer that was
    scanned, in which the first space after the first token is now a NUL,
    read as a C string. *)
Definition path_string (l : panel_launcher) : string := token_of (path l).

(** [panel_launcher_motion_handler] sets the tooltip of the widget to
    [basename (launcher->path)]; [basename] is the C library's. *)
Definition panel_launcher_motion_handler (basename : string -> string)
    (l : panel_launcher) : string :=
  basename (path_string l).

Lemma drop_while_head {A} (f : A -> bool) l a l' :
  drop_while f l = a :: l' -> f a = false.
Proof.
  induction l as [|b l IH]; simpl; [discriminate|].
  destruct (f b) eqn:Hb; [exact IH|].
  intros H; injection H as <- _. exact Hb.
Qed.

(** Every token of the command line goes, in order, to the overlay or to
    [argv], none twice and none lost; [argv] is the tokens from the first
    one without '=' on; and the child of the fork calls [execve] on that
    first token. *)
Theorem launcher_tokens_partition (environ : list string)
    (icon_file cmd : string) :
  let l := panel_launcher_new environ icon_file cmd in
  cmd_tokens cmd = overlay cmd ++ strings_of (argv l)
  /\ argv l = map Some (drop_while has_equals (cmd_tokens cmd)) ++ [None]
  /\ forallb has_equals (overlay cmd) = true
  /\ forall t ts,
       strings_of (argv l) = t :: ts ->
       has_equals t = false
       /\ panel_launcher_activate l 0 = child_execve (Some t) (argv l) (envp l).
Proof.
  intros l. subst l. rewrite launcher_argv, strings_of_terminated.
  unfold overlay. rewrite take_drop_while.
  split; [reflexivity|]. split; [reflexivity|]. split.
  - induction (cmd_tokens cmd) as [|t ts IH]; [reflexivity|].
    simpl. destruct (has_equals t) eqn:Ht; simpl; [now rewrite Ht|reflexivity].
  - intros t ts Hd. split; [exact (drop_while_head _ _ _ _ Hd)|].
    unfold panel_launcher_activate. simpl Z.ltb. cbn [negb Z.eqb].
    rewrite launcher_argv, Hd. reflexivity.
Qed.

Lemma launcher_tokens_partition_witness :
  strings_of (argv (panel_launcher_new ["HOME=/root"] "icon.png"
                      "FOO=bar /usr/bin/prog BAZ=qux"))
  = ["/usr/bin/prog"; "BAZ=qux"]
  /\ panel_launcher_activate
       (panel_launcher_new ["HOME=/root"] "icon.png"
          "FOO=bar /usr/bin/prog BAZ=qux") 0
     = child_execve (Some "/usr/bin/prog")
         [Some "/usr/bin/prog"; Some "BAZ=qux"; None]
         [Some "HOME=/root"; Some "FOO=bar"; None].
Proof.
  split; [reflexivity|].
  apply (proj2 (proj2 (proj2 (launcher_tokens_partition ["HOME=/root"] "icon.png"
                  "FOO=bar /usr/bin/prog BAZ=qux")))
           "/usr/bin/prog" ["BAZ=qux"]).
  reflexivity.
Defined.

(** The environment of a launcher depends on the command line through its
    overlay only: what follows the first token without '=' never reaches
    [envp]. *)
Theorem launcher_envp_ignores_arguments (environ : list string)
    (icon1 icon2 cmd1 cmd2 : string) :
  overlay cmd1 = overlay cmd2 ->
  envp (panel_launcher_new environ icon1 cmd1)
  = envp (panel_launcher_new environ icon2 cmd2).
Proof.
  intros H.
  rewrite (launcher_envp_overlay environ icon1 cmd1).
  rewrite (launcher_envp_overlay environ icon2 cmd2).
  now rewrite H.
Qed.

Lemma launcher_envp_ignores_arguments_witness :
  envp (panel_launcher_new ["A=0"] "a.png" "A=1 prog")
  = envp (panel_launcher_new ["A=0"] "b.png" "A=1   other B=2 C=3").
Proof.
  apply (launcher_envp_ignores_arguments ["A=0"] "a.png" "b.png"
           "A=1 prog" "A=1   other B=2 C=3").
  reflexivity.
Defined.





Lemma forallb_drop_while {A} (f g : A -> bool) l :
  forallb f l = true -> forallb f (drop_while g l) = true.
Proof.
  induction l as [|a l IH]; simpl; [auto|].
  intros H. apply andb_true_iff in H as [Ha Hl].
  destruct (g a); [auto|]. simpl. now rewrite Ha, Hl.
Qed.

(** No entry of [argv] holds a space, and for a command line that does not
    begin with one no entry is empty. *)
Theorem launcher_argv_words (environ : list string) (icon_file cmd : string) :
  let args := strings_of (argv (panel_launcher_new environ icon_file cmd)) in
  forallb nospace args = true
  /\ (at_word cmd = true -> forallb nonempty args = true).
Proof.
  intros args. subst args. rewrite launcher_argv, strings_of_terminated.
  split.
  - apply forallb_drop_while, cmd_tokens_nospace.
  - intros Hw. apply forallb_drop_while.
    pose proof (cmd_tokens_good cmd Hw) as Hg.
    induction (cmd_tokens cmd) as [|t ts IH]; [reflexivity|].
    simpl in *. apply andb_true_iff in Hg as [Ht Hts].
    unfold good in Ht. apply andb_true_iff in Ht as [_ ->]. auto.
Qed.

Lemma launcher_argv_words_witness :
  forallb nonempty
    (strings_of (argv (panel_launcher_new [] "icon.png" "A=1  prog  -x")))
  = true.
Proof.
  apply (proj2 (launcher_argv_words [] "icon.png" "A=1  prog  -x")).
  reflexivity.
Defined.

(** A command line that begins with a space: its first token is the empty
    string, which has no '=', so no override is applied, [envp] is
    [environ], every token is an argument, and the child calls [execve] on
    the empty string. *)
Theorem launcher_leading_space (environ : list string)
    (icon_file : string) (c : ascii) (s : string) :
  isspace c = true ->
  let l := panel_launcher_new environ icon_file (String c s) in
  overlay (String c s) = []
  /\ envp l = map Some environ ++ [None]
  /\ argv l = Some "" :: map Some (cmd_tokens (skip_space s)) ++ [None]
  /\ panel_launcher_activate l 0 = child_execve (Some "") (argv l) (envp l).
Proof.
  intros Hc l.
  assert (Ht : cmd_tokens (String c s) = "" :: cmd_tokens (skip_space s)).
  { rewrite cmd_tokens_step by discriminate. simpl. rewrite Hc.
    simpl. now rewrite Hc. }
  assert (Ha : argv l = Some "" :: map Some (cmd_tokens (skip_space s)) ++ [None]).
  { subst l. rewrite launcher_argv, Ht. reflexivity. }
  assert (Ho : overlay (String c s) = []).
  { unfold overlay. now rewrite Ht. }
  split; [exact Ho|]. split.
  - subst l. now rewrite launcher_envp_overlay, Ho.
  - split; [exact Ha|].
    unfold panel_launcher_activate. now rewrite Ha.
Qed.

Lemma launcher_leading_space_witness :
  argv (panel_launcher_new ["FOO=0"] "icon.png" " FOO=1 prog")
  = [Some ""; Some "FOO=1"; Some "prog"; None]
  /\ envp (panel_launcher_new ["FOO=0"] "icon.png" " FOO=1 prog")
     = [Some "FOO=0"; None].
Proof.
  pose proof (launcher_leading_space ["FOO=0"] "icon.png" " "%char
                "FOO=1 prog" eq_refl) as H.
  split; [exact (proj1 (proj2 (proj2 H))) | exact (proj1 (proj2 H))].
Defined.

(** The tooltip of a launcher is the base name of the first token of its
    command line, which is the first override when there is one, and the
    executable only when the command line begins with it. *)
Theorem launcher_tooltip (basename : string -> string)
    (environ : list string) (icon_file cmd : string) :
  let l := panel_launcher_new environ icon_file cmd in
  panel_launcher_motion_handler basename l = basename (hd "" (cmd_tokens cmd))
  /\ (forall t ts, overlay cmd = t :: ts ->
        panel_launcher_motion_handler basename l = basename t)
  /\ (overlay cmd = [] ->
      panel_launcher_motion_handler basename l
      = basename (hd "" (strings_of (argv l)))).
Proof.
  intros l.
  assert (H : panel_launcher_motion_handler basename l
              = basename (hd "" (cmd_tokens cmd))).
  { unfold panel_launcher_motion_handler, path_string. subst l. simpl.
    destruct cmd as [|c s]; [now rewrite cmd_tokens_equation_1|].
    now rewrite cmd_tokens_step by discriminate. }
  split; [exact H|].
  assert (Hp : cmd_tokens cmd = overlay cmd ++ strings_of (argv l)).
  { subst l. rewrite launcher_argv, strings_of_terminated.
    unfold overlay. now rewrite take_drop_while. }
  split.
  - intros t ts Ho. rewrite H, Hp, Ho. reflexivity.
  - intros Ho. rewrite H, Hp, Ho. reflexivity.
Qed.

Lemma launcher_tooltip_witness :
  panel_launcher_motion_handler (fun s => s)
    (panel_launcher_new [] "icon.png" "FOO=bar /usr/bin/prog")
  = "FOO=bar".
Proof.
  apply (proj1 (proj2 (launcher_tooltip (fun s => s) [] "icon.png"
                         "FOO=bar /usr/bin/prog")) "FOO=bar" []).
  reflexivity.
Defined.

(** Setting a variable by name: the first entry that begins with the name
    and '=' is replaced, and without one the token is added at the end. *)
Fixpoint replace_variable (name tok : string) (env : list string)
  : list string :=
  match env with
  | [] => [tok]
  | e :: env' =>
      if starts_with (name ++ "=") e then tok :: env'
      else e :: replace_variable name tok env'
  end.

Lemma eq_of_name name value off :
  nospace name = true -> has_equals name = false -> has_equals value = false ->
  eq_of (name ++ "=" ++ value) off None = Some (off + String.length name)%nat.
Proof.
  revert off; induction name as [|c name IH]; intros off Hn He Hv; simpl in *.
  - rewrite eq_of_no_equals by exact Hv. f_equal; lia.
  - apply andb_true_iff in Hn as [Hc Hn]. apply negb_true_iff in Hc.
    apply orb_false_iff in He as [Hq He]. rewrite Hc, Hq.
    rewrite IH by assumption. f_equal; lia.
Qed.

Lemma envp_replace_by_name name tok env :
  (forall e, In e env ->
             starts_with name e = true -> starts_with (name ++ "=") e = true) ->
  match envp_replace env name tok (String.length name) with
  | Some ps => ps
  | None => env ++ [tok]
  end = replace_variable name tok env.
Proof.
  induction env as [|e env IH]; intros H; simpl; [reflexivity|].
  rewrite strncmp_zero_starts_with.
  destruct (starts_with name e) eqn:Hs.
  - now rewrite (H e (or_introl eq_refl) Hs).
  - assert (Hf : starts_with (name ++ "=") e = false).
    { clear -Hs. revert e Hs; induction name as [|c name IHn]; intros e Hs;
        [discriminate|].
      destruct e as [|x e]; [reflexivity|]. simpl in *.
      destruct (Ascii.eqb x c); [simpl in *; auto|reflexivity]. }
    rewrite Hf. specialize (IH (fun e' Hin => H e' (or_intror Hin))).
    destruct (envp_replace env name tok (String.length name)); simpl;
      now rewrite <- IH.
Qed.

(** Where the override does set the variable of its name: for an overlay of
    one token [name=value] with no other '=' in it, and an environment in
    which no entry begins with the name other than by the name and '=',
    [envp] is [environ] with the first entry of that name replaced by the
    token, or with the token added at the end when there is none. *)
Theorem launcher_override_by_name (environ : list string)
    (icon_file cmd name value : string) :
  nospace name = true -> has_equals name = false -> has_equals value = false ->
  overlay cmd = [(name ++ "=" ++ value)%string] ->
  (forall e, In e environ ->
             starts_with name e = true -> starts_with (name ++ "=") e = true) ->
  envp (panel_launcher_new environ icon_file cmd)
  = map Some (replace_variable name (name ++ "=" ++ value) environ) ++ [None].
Proof.
  intros Hn He Hv Ho H.
  rewrite launcher_envp_overlay, Ho. cbn [fold_left].
  unfold merge, parse_token. rewrite (eq_of_name name value 0 Hn He Hv).
  cbn [st_argv st_envp Nat.add].
  rewrite envp_replace_prefix by lia.
  pose proof (envp_replace_by_name name (name ++ "=" ++ value) environ H) as E.
  destruct (envp_replace environ name (name ++ "=" ++ value) (String.length name));
    rewrite <- E; reflexivity.
Qed.

Lemma launcher_override_by_name_witness :
  envp (panel_launcher_new ["HOME=/root"; "FOO=0"; "FOO=9"] "icon.png"
          "FOO=2 prog FOO=3")
  = [Some "HOME=/root"; Some "FOO=2"; Some "FOO=9"; None].
Proof.
  apply (launcher_override_by_name ["HOME=/root"; "FOO=0"; "FOO=9"] "icon.png"
           "FOO=2 prog FOO=3" "FOO" "2");
    try reflexivity.
  intros e [<-|[<-|[<-|[]]]]; simpl; intros; try discriminate; reflexivity.
Defined.

End LauncherArguments.

(** ** desktop-shell-panel.c: layout and drawing of the panel's widgets *)

Section PanelWidgets.

Import Panel.

(** What [cairo_image_surface_create_from_png] gives for an icon file: the
    width and height of the surface, or [None] when its status is not
    CAIRO_STATUS_SUCCESS. *)
Variable png_size : string -> option (Z * Z).

(** [load_icon_or_fallback]: the surface loaded, or the 20 by 20 surface
    with the crossed box drawn on it. *)
Definition load_icon_or_fallback (icon_file : string) : Z * Z :=
  match png_size icon_file with
  | Some wh => wh
  | None => (20, 20)
  end.

(** The [wl_list_for_each] of [panel_resize_handler], from the value of [x]
    at a launcher: the allocations given to the launcher widgets.  The
    division is C's, towards zero. *)
Fixpoint launcher_allocations (x0 : Z) (ls : list panel_launcher)
  : list rectangle :=
  match ls with
  | [] => []
  | l :: ls' =>
      let (w, h) := load_icon_or_fallback (icon l) in
      {| x := x0; y := 16 - Z.quot h 2; width := w + 1; height := h + 1 |}
        :: launcher_allocations (x0 + w + 10) ls'
  end.

(** Arithmetic on [int] and [int32_t] keeps the low 32 bits, read in two's
    complement. *)
Definition int32 (z : Z) : Z := (z + 2 ^ 31) mod 2 ^ 32 - 2 ^ 31.

(** [panel_resize_handler]: the allocations of the launchers and, when the
    panel has a clock, of the clock, whose [x] is [width - w - 8] computed
    on [int]. *)
Definition panel_resize_handler (p : panel) (w h : Z)
  : list rectangle * option rectangle :=
  (launcher_allocations 10 (launcher_list p),
   match clock p with
   | Some _ =>
       Some {| x := int32 (int32 (w - 170) - 8); y := 16 - Z.quot 20 2;
               width := 170 + 1; height := 20 + 1 |}
   | None => None
   end).

(** [panel_configure] asks for the width configured and a height of 32. *)
Definition panel_configure (w h : Z) : Z * Z := (w, 32).

(** What the launcher and the clock draw on the panel. *)
Inductive draw_call :=
| cairo_set_source_surface (sx sy : Z)
| cairo_paint_surface
| cairo_set_source_rgba (r g b alpha_tenths : Z)
| cairo_mask_surface (mx my : Z)
| cairo_move_to (tx ty : Z)
| cairo_set_source_rgb (r g b : Z)
| cairo_show_text (s : string).

(** [panel_launcher_redraw_handler]: the icon at the allocation, one pixel
    down and right when [pressed]; the white mask of alpha 0.4 when
    [focused]. *)
Definition panel_launcher_redraw_handler (l : panel_launcher)
    (allocation : rectangle) : list draw_call :=
  let ax := if pressed l =? 0 then x allocation else x allocation + 1 in
  let ay := if pressed l =? 0 then y allocation else y allocation + 1 in
  [cairo_set_source_surface ax ay; cairo_paint_surface]
    ++ (if focused l =? 0 then []
        else [cairo_set_source_rgba 1 1 1 4; cairo_mask_surface ax ay]).

(** [panel_clock_redraw_handler], [text] being what [strftime] wrote:
    nothing for an allocation of width 0, else the text in black and then
    in white.  The coordinates are computed on [int]. *)
Definition panel_clock_redraw_handler (allocation : rectangle) (text : string)
  : list draw_call :=
  if width allocation =? 0 then []
  else
    [cairo_move_to (int32 (x allocation + 5))
       (int32 (int32 (y allocation
                      + int32 (3 * Z.shiftr (height allocation) 2)) + 1));
     cairo_set_source_rgb 0 0 0;
     cairo_show_text text;
     cairo_move_to (int32 (x allocation + 4))
       (int32 (y allocation + int32 (3 * Z.shiftr (height allocation) 2)));
     cairo_set_source_rgb 1 1 1;
     cairo_show_text text].

Lemma int32_id z : - 2 ^ 31 <= z < 2 ^ 31 -> int32 z = z.
Proof.
  intros H. unfold int32. rewrite Z.mod_small by lia. lia.
Qed.

Lemma launcher_allocations_length x0 ls :
  length (launcher_allocations x0 ls) = length ls.
Proof.
  revert x0; induction ls as [|l ls IH]; intros x0; simpl; [reflexivity|].
  destruct (load_icon_or_fallback (icon l)); simpl. now rewrite IH.
Qed.

Lemma launcher_allocations_head x0 ls a :
  nth_error (launcher_allocations x0 ls) 0 = Some a -> x a = x0.
Proof.
  destruct ls as [|l ls]; simpl; [discriminate|].
  destruct (load_icon_or_fallback (icon l)); simpl. now intros [= <-].
Qed.

Lemma launcher_allocations_next x0 ls i a b :
  nth_error (launcher_allocations x0 ls) i = Some a ->
  nth_error (launcher_allocations x0 ls) (S i) = Some b ->
  x b = x a + width a + 9.
Proof.
  revert x0 i; induction ls as [|l ls IH]; intros x0 i Ha Hb; simpl in *;
    [destruct i; discriminate|].
  destruct (load_icon_or_fallback (icon l)) as [w h].
  destruct i as [|i].
  - simpl in Ha, Hb. injection Ha as <-.
    apply launcher_allocations_head in Hb. simpl. lia.
  - simpl in Ha, Hb. exact (IH _ _ Ha Hb).
Qed.

Lemma launcher_allocations_nth x0 ls i a :
  nth_error (launcher_allocations x0 ls) i = Some a ->
  exists l, nth_error ls i = Some l
            /\ y a = 16 - Z.quot (snd (load_icon_or_fallback (icon l))) 2
            /\ width a = fst (load_icon_or_fallback (icon l)) + 1
            /\ height a = snd (load_icon_or_fallback (icon l)) + 1.
Proof.
  revert x0 i; induction ls as [|l ls IH]; intros x0 i Ha; simpl in *;
    [destruct i; discriminate|].
  destruct (load_icon_or_fallback (icon l)) as [w h] eqn:E.
  destruct i as [|i]; simpl in Ha.
  - injection Ha as <-. exists l. rewrite E. simpl. auto.
  - exact (IH _ _ Ha).
Qed.

(** The launchers are laid out in the order of the list from x = 10, one
    widget per launcher, each one pixel wider and higher than its icon, and
    each beginning nine pixels after the end of the one before, whatever
    the width of the panel; an icon from 0 to 30 pixels high is allocated
    inside the 32 rows that [panel_configure] asks for. *)
Theorem panel_launcher_layout (p : panel) (w h : Z) :
  let allocs := fst (panel_resize_handler p w h) in
  length allocs = length (launcher_list p)
  /\ (forall a, nth_error allocs 0 = Some a -> x a = 10)
  /\ (forall i a b,
        nth_error allocs i = Some a -> nth_error allocs (S i) = Some b ->
        x b = x a + width a + 9)
  /\ (forall i a,
        nth_error allocs i = Some a ->
        exists l, nth_error (launcher_list p) i = Some l
          /\ width a = fst (load_icon_or_fallback (icon l)) + 1
          /\ height a = snd (load_icon_or_fallback (icon l)) + 1
          /\ (0 <= snd (load_icon_or_fallback (icon l)) <= 30 ->
              0 <= y a /\ y a + height a <= snd (panel_configure w h))).
Proof.
  intros allocs; subst allocs; simpl.
  split; [apply launcher_allocations_length|].
  split; [intros a; apply launcher_allocations_head|].
  split; [intros i a b; apply launcher_allocations_next|].
  intros i a Ha.
  destruct (launcher_allocations_nth _ _ _ _ Ha) as (l & Hl & Hy & Hw & Hh).
  exists l. repeat split; auto; rewrite ?Hy, ?Hh;
    pose proof (Z.quot_pos (snd (load_icon_or_fallback (icon l))) 2);
    pose proof (Z.quot_rem' (snd (load_icon_or_fallback (icon l))) 2);
    pose proof (Z.rem_bound_pos (snd (load_icon_or_fallback (icon l))) 2);
    lia.
Qed.

(** The clock draws nothing while its allocation has width 0, and
    [panel_resize_handler] never gives it such an allocation: after a
    resize to a width [w] from which 178 can be subtracted on [int]
    (INT32_MIN + 178 <= w <= INT32_MAX) the clock text is drawn twice, in
    black at (w - 173, 22) and then in white one pixel up and left of it.
    Below that the subtraction wraps round: at INT32_MIN the allocation
    starts at 2147483470. *)
Theorem panel_clock_drawn_after_resize (p : panel) (w h : Z) (text : string)
    (a : rectangle) :
  - 2 ^ 31 + 178 <= w < 2 ^ 31 ->
  snd (panel_resize_handler p w h) = Some a ->
  panel_clock_redraw_handler a text
  = [cairo_move_to (w - 173) 22; cairo_set_source_rgb 0 0 0;
     cairo_show_text text;
     cairo_move_to (w - 174) 21; cairo_set_source_rgb 1 1 1;
     cairo_show_text text]
  /\ (forall x0 y0 h0,
        panel_clock_redraw_handler
          {| x := x0; y := y0; width := 0; height := h0 |} text = [])
  /\ (forall b,
        snd (panel_resize_handler p (- 2 ^ 31) h) = Some b -> x b = 2147483470).
Proof.
  intros Hw H. unfold panel_resize_handler in *. simpl in *.
  destruct (clock p); [|discriminate]. injection H as <-.
  split; [|split; [reflexivity|]].
  - unfold panel_clock_redraw_handler. simpl.
    rewrite (int32_id (w - 170)) by lia.
    rewrite (int32_id (w - 170 - 8)) by lia.
    rewrite (int32_id (w - 170 - 8 + 5)) by lia.
    rewrite (int32_id (w - 170 - 8 + 4)) by lia.
    repeat (f_equal; try lia).
  - intros b Hb. injection Hb as <-. reflexivity.
Qed.

(** No handler of the file sets [pressed]: on a panel made by
    [panel_create] and any handlers after it every launcher has [pressed]
    at 0, so its icon is always drawn at its allocation and never at the
    one-pixel offset; and [focused] is 0 or 1. *)
Theorem panel_launcher_never_pressed (timerfd : Z) (ops : list panel_op)
    (l : panel_launcher) (allocation : rectangle) :
  In l (launcher_list (panel_ops ops (panel_create timerfd))) ->
  pressed l = 0
  /\ (focused l = 0 \/ focused l = 1)
  /\ firstn 2 (panel_launcher_redraw_handler l allocation)
     = [cairo_set_source_surface (x allocation) (y allocation);
        cairo_paint_surface].
Proof.
  assert (Inv : forall ops q,
             Forall (fun l => pressed l = 0 /\ (focused l = 0 \/ focused l = 1))
               (launcher_list q) ->
             Forall (fun l => pressed l = 0 /\ (focused l = 0 \/ focused l = 1))
               (launcher_list (panel_ops ops q))).
  { clear. induction ops as [|o ops IH]; intros q Hq; [exact Hq|].
    unfold panel_ops in *; simpl. apply IH.
    assert (Hup : forall k f,
               (forall l, pressed l = 0 /\ (focused l = 0 \/ focused l = 1) ->
                          pressed (f l) = 0 /\ (focused (f l) = 0 \/ focused (f l) = 1)) ->
               Forall (fun l => pressed l = 0 /\ (focused l = 0 \/ focused l = 1))
                 (update_nth k f (launcher_list q))).
    { intros k f Hf. revert k. induction Hq as [|a ls Ha Hls IHq]; intros k.
      - destruct k; constructor.
      - destruct k; simpl; constructor; auto. }
    destruct o; simpl; try exact Hq.
    - apply Forall_app. split; [exact Hq|]. repeat constructor.
    - apply Hup. intros l [Hp _]. simpl. auto.
    - apply Hup. intros l [Hp _]. simpl. auto. }
  intros Hin.
  specialize (Inv ops (panel_create timerfd) (Forall_nil _)).
  rewrite Forall_forall in Inv. destruct (Inv l Hin) as [Hp Hf].
  split; [exact Hp|]. split; [exact Hf|].
  unfold panel_launcher_redraw_handler. rewrite Hp. reflexivity.
Qed.

(** [panel_destroy]: [panel_destroy_clock] reads [clock->widget] without a
    test, so a panel with no clock makes it dereference NULL ([None]);
    otherwise the clock, the launchers, the widget and the window are
    destroyed, [Some] with the number of launchers destroyed. *)
Definition panel_destroy (p : panel) : option nat :=
  match clock p with
  | None => None
  | Some _ => Some (length (launcher_list p))
  end.

Lemma panel_ops_clock ops p : clock (panel_ops ops p) = clock p.
Proof.
  revert p; induction ops as [|o ops IH]; intros p; [reflexivity|].
  unfold panel_ops in *; simpl. rewrite IH. now destruct o.
Qed.

(** Whether a panel has a clock is settled when it is created: a panel for
    which [timerfd_create] failed never gets one, is given no clock
    allocation on resize, and [panel_destroy] dereferences its NULL clock;
    a panel whose timer was created can always be destroyed. *)
Theorem panel_clock_fixed_at_creation (timerfd : Z) (ops : list panel_op)
    (w h : Z) :
  let p := panel_ops ops (panel_create timerfd) in
  (clock p = None <-> timerfd < 0)
  /\ (snd (panel_resize_handler p w h) = None <-> timerfd < 0)
  /\ (panel_destroy p = None <-> timerfd < 0).
Proof.
  intros p. subst p.
  unfold panel_destroy, panel_resize_handler. simpl.
  rewrite panel_ops_clock. simpl.
  destruct (timerfd <? 0) eqn:Ht;
    [apply Z.ltb_lt in Ht | apply Z.ltb_ge in Ht];
    repeat split; intros; try discriminate; auto; lia.
Qed.

End PanelWidgets.

Lemma panel_clock_drawn_after_resize_witness :
  panel_clock_redraw_handler
    {| x := 846; y := 6; width := 171; height := 21 |}
    "Fri Oct 30, 10:22 AM"
  = [cairo_move_to 851 22; cairo_set_source_rgb 0 0 0;
     cairo_show_text "Fri Oct 30, 10:22 AM";
     cairo_move_to 850 21; cairo_set_source_rgb 1 1 1;
     cairo_show_text "Fri Oct 30, 10:22 AM"].
Proof.
  refine (proj1 (panel_clock_drawn_after_resize (fun _ => None)
                   (Panel.panel_create 3) 1024 32 "Fri Oct 30, 10:22 AM"
                   {| x := 846; y := 6; width := 171; height := 21 |}
                   _ eq_refl)).
  simpl. lia.
Defined.

Lemma panel_launcher_never_pressed_witness :
  let l := Panel.set_focused 1
             (Panel.panel_launcher_new [] "icon.png" "/usr/bin/weston-terminal") in
  Panel.pressed l = 0
  /\ (Panel.focused l = 0 \/ Panel.focused l = 1)
  /\ firstn 2 (panel_launcher_redraw_handler l
                 {| x := 10; y := 6; width := 21; height := 21 |})
     = [cairo_set_source_surface 10 6; cairo_paint_surface].
Proof.
  apply (panel_launcher_never_pressed 3
           [Panel.op_add_launcher [] "icon.png" "/usr/bin/weston-terminal";
            Panel.op_launcher_enter 0]).
  simpl. left. reflexivity.
Defined.

(** ** desktop-shell-panel.c: the launcher sections of the configuration *)

Section LauncherSections.

Import Panel.

Definition is_set (o : option string) : bool :=
  match o with Some _ => true | None => false end.

(** Whether a run of steps completes a [launcher] section with both keys
    set, from whether the two key variables are set at its start.  A key
    stays set until a section is completed with both. *)
Fixpoint completes (icon path : bool) (st : list config_step) : bool :=
  match st with
  | [] => false
  | assign_panel_color _ :: st' => completes icon path st'
  | assign_launcher_icon _ :: st' => completes true path st'
  | assign_launcher_path _ :: st' => completes icon true st'
  | launcher_done :: st' => (icon && path) || completes icon path st'
  end.

Lemma config_steps_completes environ st p k :
  match config_steps environ st (p, k) with
  | None =>
      completes (is_set (key_launcher_icon k)) (is_set (key_launcher_path k)) st
      = true
  | Some (p', k') =>
      completes (is_set (key_launcher_icon k)) (is_set (key_launcher_path k)) st
      = false
      /\ p' = p
  end.
Proof.
  revert k; induction st as [|s st IH]; intros k; [simpl; auto|].
  destruct s as [v|v|v| ]; cbn [config_steps config_do completes].
  - apply (IH {| key_panel_color := v;
                 key_launcher_icon := key_launcher_icon k;
                 key_launcher_path := key_launcher_path k |}).
  - apply (IH {| key_panel_color := key_panel_color k;
                 key_launcher_icon := Some v;
                 key_launcher_path := key_launcher_path k |}).
  - apply (IH {| key_panel_color := key_panel_color k;
                 key_launcher_icon := key_launcher_icon k;
                 key_launcher_path := Some v |}).
  - unfold launcher_section_done.
    destruct (key_launcher_icon k) as [i|] eqn:Hi;
      destruct (key_launcher_path k) as [c|] eqn:Hc; cbn [is_set andb orb];
      try reflexivity;
      specialize (IH k); rewrite Hi, Hc in IH; exact IH.
Qed.

Lemma completes_section icon path pre i c post :
  completes icon path
    (pre ++ [assign_launcher_icon i; assign_launcher_path c; launcher_done]
         ++ post) = true.
Proof.
  revert icon path; induction pre as [|s pre IH]; intros icon path.
  - reflexivity.
  - destruct s; cbn [app completes]; rewrite ?IH; auto using orb_true_r.
Qed.

(** [panel_read_config] never adds a launcher of the configuration file to
    the panel: the done handler is handed the address of
    [panel_read_config]'s argument and not the panel.  A run that
    completes a [launcher] section with both keys set ends in
    [panel_add_launcher] on what is no panel, and the call has no result;
    so does every run with a section that gives an icon and a path.  A run
    that completes no such section returns the value of
    [parse_config_file] and leaves the panel with the launchers it had and
    the default terminal after them exactly when that value is negative,
    its clock and its painted flag untouched. *)
Theorem panel_read_config_sections (DATADIR BINDIR : string)
    (environ : list string) (p : panel) (k : config_keys) :
  (forall run,
     match panel_read_config DATADIR BINDIR environ run (p, k) with
     | None =>
         completes (is_set (key_launcher_icon k)) (is_set (key_launcher_path k))
           (steps run) = true
     | Some (p', _, r) =>
         completes (is_set (key_launcher_icon k)) (is_set (key_launcher_path k))
           (steps run) = false
         /\ launcher_list p'
            = launcher_list p
                ++ (if (ret run <? 0)%Z
                    then [panel_launcher_new environ
                            (DATADIR ++ "/weston/terminal.png")%string
                            (BINDIR ++ "/weston-terminal")%string]
                    else [])
         /\ clock p' = clock p /\ painted p' = painted p /\ r = ret run
     end)
  /\ (forall pre i c post r,
        panel_read_config DATADIR BINDIR environ
          {| steps := pre ++ [assign_launcher_icon i; assign_launcher_path c;
                              launcher_done] ++ post;
             ret := r |} (p, k)
        = None)
  /\ (forall i c r,
        panel_read_config DATADIR BINDIR environ
          {| steps := [assign_launcher_icon i; launcher_done;
                       assign_launcher_path c; launcher_done];
             ret := r |} (p, k)
        = None).
Proof.
  assert (H : forall run,
     match panel_read_config DATADIR BINDIR environ run (p, k) with
     | None =>
         completes (is_set (key_launcher_icon k)) (is_set (key_launcher_path k))
           (steps run) = true
     | Some (p', _, r) =>
         completes (is_set (key_launcher_icon k)) (is_set (key_launcher_path k))
           (steps run) = false
         /\ launcher_list p'
            = launcher_list p
                ++ (if (ret run <? 0)%Z
                    then [panel_launcher_new environ
                            (DATADIR ++ "/weston/terminal.png")%string
                            (BINDIR ++ "/weston-terminal")%string]
                    else [])
         /\ clock p' = clock p /\ painted p' = painted p /\ r = ret run
     end).
  { intros run. unfold panel_read_config, parse_config_file.
    pose proof (config_steps_completes environ (steps run) p k) as H.
    destruct (config_steps environ (steps run) (p, k)) as [[p' k']|];
      [|exact H].
    destruct H as [Hc ->]. destruct (ret run <? 0)%Z; simpl.
    - repeat split; auto.
    - rewrite app_nil_r. repeat split; auto. }
  split; [exact H|]. split.
  - intros pre i c post r.
    specialize (H {| steps := pre ++ [assign_launcher_icon i;
                                      assign_launcher_path c; launcher_done]
                                  ++ post;
                     ret := r |}).
    destruct (panel_read_config _ _ _ _ _) as [[[p' k'] r']|]; [|reflexivity].
    destruct H as [Hc _]. cbn [steps] in Hc.
    rewrite completes_section in Hc. discriminate.
  - intros i c r.
    specialize (H {| steps := [assign_launcher_icon i; launcher_done;
                               assign_launcher_path c; launcher_done];
                     ret := r |}).
    destruct (panel_read_config _ _ _ _ _) as [[[p' k'] r']|]; [|reflexivity].
    destruct H as [Hc _]. cbn [steps completes] in Hc.
    rewrite !andb_true_r, ?orb_true_r in Hc.
    destruct (is_set (key_launcher_icon k)), (is_set (key_launcher_path k));
      discriminate.
Qed.

End LauncherSections.

(** ** desktop-shell-background.c: colour, fallback and fill mode *)

Section BackgroundColour.

Import Background.

(** One of the four bytes that [set_hex_color] takes from a colour. *)
Definition channel (c shift : Z) : Z := Z.land (Z.shiftr c shift) 255.

Definition unit_interval (f : float) : bool :=
  (PrimFloat.leb 0 f && PrimFloat.leb f 1)%bool.

Lemma channel_range c shift : (0 <= channel c shift <= 255)%Z.
Proof.
  unfold channel. change 255%Z with (Z.ones 8). rewrite Z.land_ones by lia.
  change (2 ^ 8) with 256. change (Z.ones 8) with 255.
  pose proof (Z.mod_pos_bound (Z.shiftr c shift) 256 ltac:(lia)). lia.
Qed.

Lemma byte_fraction_unit n :
  (0 <= n <= 255)%Z -> unit_interval (double_of_int n / 255) = true.
Proof.
  intros Hn.
  assert (H : forallb (fun k => unit_interval (double_of_int (Z.of_nat k) / 255))
                (seq 0 256) = true) by (vm_compute; reflexivity).
  rewrite forallb_forall in H.
  specialize (H (Z.to_nat n)). rewrite Z2Nat.id in H by lia.
  apply H. apply in_seq. lia.
Qed.

(** [set_hex_color] reads a colour as 0xAARRGGBB: the four values it hands
    to cairo are the four bytes of the colour over 255, each from 0 to 1,
    red from bits 16 to 23, green from 8 to 15, blue from 0 to 7 and alpha
    from 24 to 31, and the bytes put back together are the colour. *)
Theorem set_hex_color_channels (c : Z) :
  (0 <= c < 2 ^ 32)%Z ->
  let a := channel c 24 in
  let r := channel c 16 in
  let g := channel c 8 in
  let b := channel c 0 in
  set_hex_color c
  = cairo_set_source_rgba (double_of_int r / 255) (double_of_int g / 255)
      (double_of_int b / 255) (double_of_int a / 255)
  /\ (a * 2 ^ 24 + r * 2 ^ 16 + g * 2 ^ 8 + b = c)%Z
  /\ unit_interval (double_of_int r / 255) = true
  /\ unit_interval (double_of_int g / 255) = true
  /\ unit_interval (double_of_int b / 255) = true
  /\ unit_interval (double_of_int a / 255) = true.
Proof.
  intros Hc a r g b.
  split; [reflexivity|]. split.
  - subst a r g b. unfold channel.
    change 255%Z with (Z.ones 8). rewrite !Z.land_ones by lia.
    rewrite !Z.shiftr_div_pow2 by lia.
    change (2 ^ 0)%Z with 1%Z. rewrite Z.div_1_r.
    change (2 ^ 16)%Z with (2 ^ 8 * 2 ^ 8)%Z.
    change (2 ^ 24)%Z with (2 ^ 8 * 2 ^ 8 * 2 ^ 8)%Z.
    change (2 ^ 32)%Z with (2 ^ 8 * 2 ^ 8 * 2 ^ 8 * 2 ^ 8)%Z in Hc.
    rewrite <- !Z.div_div by lia.
    change (2 ^ 8)%Z with 256%Z in *.
    pose proof (Z.div_mod c 256 ltac:(lia)).
    pose proof (Z.mod_pos_bound c 256 ltac:(lia)).
    pose proof (Z.div_mod (c / 256) 256 ltac:(lia)).
    pose proof (Z.mod_pos_bound (c / 256) 256 ltac:(lia)).
    pose proof (Z.div_mod (c / 256 / 256) 256 ltac:(lia)).
    pose proof (Z.mod_pos_bound (c / 256 / 256) 256 ltac:(lia)).
    pose proof (Z.div_mod (c / 256 / 256 / 256) 256 ltac:(lia)).
    pose proof (Z.mod_pos_bound (c / 256 / 256 / 256) 256 ltac:(lia)).
    assert (c / 256 / 256 / 256 / 256 = 0)%Z.
    { rewrite !Z.div_div by lia. apply Z.div_small. lia. }
    lia.
  - repeat split; apply byte_fraction_unit, channel_range.
Qed.

Lemma set_hex_color_channels_witness :
  set_hex_color 0xff002244
  = cairo_set_source_rgba 0 (double_of_int 0x22 / 255)
      (double_of_int 0x44 / 255) 1.
Proof.
  refine (eq_trans (proj1 (set_hex_color_channels 0xff002244 _)) _).
  - split; [lia | reflexivity].
  - reflexivity.
Defined.

(** When there is no image to draw, because [image] is NULL or because the
    file did not load, [background_draw] fills with the colour of the
    background, whatever the fill mode, makes no pattern call, and still
    sets the painted flag. *)
Theorem background_draw_fallback (b : background) (loaded : option (Z * Z))
    (allocation : rectangle) :
  image b = None \/ loaded = None ->
  snd (background_draw b loaded allocation)
  = [cairo_set_source_rgba 0 0 0.2 1; cairo_paint;
     set_hex_color (color b); cairo_paint]
  /\ background_painted (fst (background_draw b loaded allocation)) <> 0%Z.
Proof.
  intros H. split; [|simpl; discriminate].
  unfold background_draw; simpl.
  destruct H as [-> | ->]; [reflexivity|].
  destruct (image b); reflexivity.
Qed.

Lemma background_draw_fallback_witness :
  snd (background_draw
         {| image := Some "pattern.png"%string; color := 0xff002244;
            painted := 0; type := BACKGROUND_TILE |}
         None {| x := 0; y := 0; width := 1024; height := 768 |})
  = [cairo_set_source_rgba 0 0 0.2 1; cairo_paint;
     set_hex_color 0xff002244; cairo_paint].
Proof.
  apply (proj1 (background_draw_fallback
                  {| image := Some "pattern.png"%string; color := 0xff002244;
                     painted := 0; type := BACKGROUND_TILE |}
                  None {| x := 0; y := 0; width := 1024; height := 768 |}
                  (or_intror eq_refl))).
Defined.


End BackgroundColour.

(** ** desktop-shell-unlock.c and desktop-shell-simple.c: the lock dialog
    on the desktop *)

Section LockDialog.

Import Desktop.








End LockDialog.

(** ** desktop-shell-simple.c: globals, outputs and the barrier *)

Section DesktopGlobals.

Import Desktop.

Definition is_shell_global (v : Z) (e : event) : Prop :=
  e = ev_global (global_desktop_shell v).



Lemma step_interface_version e d :
  interface_version (fst (step e d))
  = match e with
    | ev_global (global_desktop_shell v) => if v <? 2 then v else 2
    | _ => interface_version d
    end.
Proof.
  destruct e as [g|k o|k o| |button state| ]; simpl.
  - now destruct g.
  - destruct (Panel.is_redraw o && has_panel k d)%bool; [|reflexivity].
    unfold check_desktop_ready; simpl. now destruct (_ && _)%bool.
  - destruct (Background.is_draw o && has_background k d)%bool; [|reflexivity].
    unfold check_desktop_ready; simpl. now destruct (_ && _)%bool.
  - unfold desktop_shell_prepare_lock_surface.
    destruct (unlocker d) as [u|]; [|reflexivity]. simpl.
    now destruct (Unlock.unlocker_lock u).
  - unfold on_dialog. destruct (unlocker d) as [u|]; [|reflexivity].
    destruct (Unlock.dialog u) as [dl|]; [|reflexivity].
    now destruct (Unlock.unlock_dialog_button_handler dl button state)
      as [[dl' ts]|].
  - destruct (unlocker d) as [u|]; [|reflexivity].
    unfold Unlock.unlock_dialog_finish. now destruct (Unlock.dialog u).
Qed.

Lemma step_ready_version e d :
  In ready (snd (step e d)) -> 2 <= interface_version d.
Proof.
  intros H. apply in_readies in H.
  destruct (step_quiet_or_fires e d) as [[_ Ht]|(_ & _ & _ & _ & Ht)];
    rewrite Ht in H; [contradiction|].
  destruct (2 <=? interface_version d) eqn:Hv; [|contradiction].
  now apply Z.leb_le.
Qed.

Lemma run_ready_version evs d :
  (interface_version d <= 2 -> interface_version (fst (run evs d)) <= 2)
  /\ (In ready (snd (run evs d)) ->
      2 <= interface_version d
      \/ exists v, In (ev_global (global_desktop_shell v)) evs /\ 2 <= v).
Proof.
  revert d; induction evs as [|e evs IH]; intros d; simpl.
  - split; [auto|contradiction].
  - pose proof (step_interface_version e d) as Hv.
    pose proof (step_ready_version e d) as Hr.
    destruct (step e d) as [d1 t1]. destruct (IH d1) as [IH1 IH2].
    assert (Hd1 : interface_version d <= 2 -> interface_version d1 <= 2).
    { intros Hd. simpl in Hv. rewrite Hv.
      destruct e as [[v| |]| | | | | ]; try exact Hd.
      destruct (v <? 2) eqn:E; [apply Z.ltb_lt in E|]; lia. }
    destruct (existsb is_fault t1);
      [simpl in *; split; [exact Hd1 | intros Hin; left; auto]|].
    destruct (run evs d1) as [d2 t2]. simpl in *. split.
    + intros Hd. apply IH1. auto.
    + intros Hin. apply in_app_or in Hin as [Hin|Hin]; [left; auto|].
      destruct (IH2 Hin) as [H2|(v & Hv2 & Hv3)].
      * rewrite Hv in H2.
        destruct e as [[v| |]| | | | | ]; try (left; exact H2).
        right. exists v. split; [left; reflexivity|].
        destruct (v <? 2) eqn:E; [apply Z.ltb_lt in E|]; lia.
      * right. exists v. auto.
Qed.

(** The version bound for [desktop_shell] is the smaller of the version
    announced and 2, so from the start of [main] it never exceeds 2; and
    the desktop-ready request is sent in a run only if the compositor
    announced a [desktop_shell] global of version 2 or more in it. *)
Theorem desktop_ready_needs_version_2 (evs : list event) :
  interface_version (fst (run evs main_start)) <= 2
  /\ (In ready (snd (run evs main_start)) ->
      exists v, In (ev_global (global_desktop_shell v)) evs /\ 2 <= v).
Proof.
  destruct (run_ready_version evs main_start) as [H1 H2]. split.
  - apply H1. simpl. lia.
  - intros Hin. destruct (H2 Hin) as [H|H]; [simpl in H; lia|exact H].
Qed.

Lemma desktop_ready_needs_version_2_witness :
  exists v,
    In (ev_global (global_desktop_shell v))
      [ev_global (global_desktop_shell 3);
       ev_global (global_wl_output false 3);
       ev_background 0 (Background.op_draw None
                          {| x := 0; y := 0; width := 800; height := 600 |})]
    /\ 2 <= v.
Proof.
  apply (proj2 (desktop_ready_needs_version_2
                  [ev_global (global_desktop_shell 3);
                   ev_global (global_wl_output false 3);
                   ev_background 0 (Background.op_draw None
                                      {| x := 0; y := 0; width := 800;
                                         height := 600 |})])).
  vm_compute. right. left. reflexivity.
Defined.






Lemma is_desktop_painted_forall os :
  is_desktop_painted os <> 0
  <-> forall o, In o os ->
                panel_unpainted o = false /\ background_unpainted o = false.
Proof.
  induction os as [|o os IH]; simpl.
  - split; [intros _ o []|discriminate].
  - destruct (panel_unpainted o) eqn:Hp.
    + split; [congruence|]. intros H. destruct (H o (or_introl eq_refl)).
      congruence.
    + destruct (background_unpainted o) eqn:Hb.
      * split; [congruence|]. intros H. destruct (H o (or_introl eq_refl)).
        congruence.
      * rewrite IH. split.
        -- intros H o' [<-|Hin]; auto.
        -- intros H o' Hin. apply H. now right.
Qed.

(** The barrier misses no redraw: after the redraw of a panel or the draw of
    a background that exists, if every tracked output has its panel (if
    any) and its background (if any) painted, then the desktop flag is
    set. *)
Theorem barrier_fires_when_all_painted (d : desktop) (k : nat)
    (loaded : option (Z * Z)) (allocation : rectangle) :
  (has_panel k d = true ->
   let d' := fst (step (ev_panel k Panel.op_redraw) d) in
   (forall o, In o (outputs d') ->
              panel_unpainted o = false /\ background_unpainted o = false) ->
   painted d' <> 0)
  /\ (has_background k d = true ->
      let d' := fst (step (ev_background k (Background.op_draw loaded allocation)) d) in
      (forall o, In o (outputs d') ->
                 panel_unpainted o = false /\ background_unpainted o = false) ->
      painted d' <> 0).
Proof.
  split; intros Hk d' Hall; subst d'; simpl in *; rewrite Hk in *;
    simpl in *; apply is_desktop_painted_forall in Hall;
    match goal with
    | |- context [check_desktop_ready ?x] =>
        destruct (check_desktop_ready_cases x) as [(_ & _ & E)|([Hp|Hi] & E)];
        rewrite E in *; simpl in *
    end; try discriminate; try exact Hp; try contradiction.
Qed.

Lemma barrier_fires_when_all_painted_witness :
  painted
    (fst (step (ev_panel 0 Panel.op_redraw)
            {| interface_version := 1; unlocker := None;
               outputs := [{| panel := Some (Panel.panel_create 3);
                              background := None |}];
               painted := 0 |}))
  <> 0.
Proof.
  apply (proj1 (barrier_fires_when_all_painted
                  {| interface_version := 1; unlocker := None;
                     outputs := [{| panel := Some (Panel.panel_create 3);
                                    background := None |}];
                     painted := 0 |} 0 None
                  {| x := 0; y := 0; width := 0; height := 0 |})).
  - reflexivity.
  - intros o [<-|[]]. split; reflexivity.
Defined.

End DesktopGlobals.
